(** * Process-scoped loopback capture: a shallow embedding

  The development follows the three translation units of
  [native-audio-loopback/src-cpp]:

  - [ApplicationLoopback/LoopbackTest.cpp]  (class [LoopbackCapture] and its
    nested [AudioInterfaceActivateHandler]),
  - [ApplicationLoopback/ApplicationLoopback.cpp]  ([wmain]),
  - [ProcessList/ProcessList.cpp]  (the window enumerator).

  The operating system (COM objects, WASAPI, USER32) is not part of the
  repository.  It is modelled as an oracle: a record of the values its
  entry points hand back, plus a log of the calls the program makes. *)

From Stdlib Require Import ZArith List Bool String Ascii Lia.
From Stdlib Require Import DecimalString.
Import ListNotations.
Local Open Scope Z_scope.

(** ** Platform vocabulary *)

Module Win32.

(** [HRESULT] is a signed 32-bit [long]; the SDK writes failure codes as
    unsigned hexadecimal literals, reinterpreted here with wrap-around. *)
Definition HRESULT := Z.
Definition HANDLE := Z.
Definition DWORD := Z.
Definition UINT32 := Z.

Definition to_long (x : Z) : Z := (x + 2 ^ 31) mod 2 ^ 32 - 2 ^ 31.
Definition to_dword (x : Z) : Z := x mod 2 ^ 32.
Definition to_word (x : Z) : Z := x mod 2 ^ 16.

Definition S_OK : HRESULT := 0.
Definition E_FAIL : HRESULT := to_long 0x80004005.
Definition E_INVALIDARG : HRESULT := to_long 0x80070057.
Definition E_ACCESSDENIED : HRESULT := to_long 0x80070005.
Definition AUDCLNT_E_NOT_INITIALIZED : HRESULT := to_long 0x88890001.

(** [#define FAILED(hr) (((HRESULT)(hr)) < 0)] *)
Definition FAILED (hr : HRESULT) : bool := hr <? 0.

Definition NULL : HANDLE := 0.

(** Constants of [audioclient.h] / [mmreg.h] used by the capture code. *)
Definition WAVE_FORMAT_PCM : Z := 1.
Definition AUDCLNT_SHAREMODE_SHARED : Z := 0.
Definition AUDCLNT_STREAMFLAGS_LOOPBACK : Z := 0x00020000.
Definition AUDCLNT_STREAMFLAGS_EVENTCALLBACK : Z := 0x00040000.
Definition AUDCLNT_STREAMFLAGS_AUTOCONVERTPCM : Z := 0x80000000.

(** [REFERENCE_TIME] counts units of 100 nanoseconds, so one millisecond
    is 10000 of them (the unit of the [hnsBufferDuration] argument of
    [IAudioClient::Initialize]). *)
Definition REFTIMES_PER_MILLISEC : Z := 10000.

End Win32.

Import Win32.

(** ** LoopbackTest.cpp *)

Module LoopbackTest.

(** A COM interface pointer: [None] is [nullptr], [Some k] an object. *)
Definition ComPtr := option nat.

Record WAVEFORMATEX := mkWaveFormat {
  wFormatTag : Z;
  nChannels : Z;
  nSamplesPerSec : Z;
  nAvgBytesPerSec : Z;
  nBlockAlign : Z;
  wBitsPerSample : Z;
  cbSize : Z
}.

(** One captured packet of the stream's ring buffer. *)
Record AudioPacket := mkPacket {
  frameCount : Z;
  data : list Z;
  flags : Z
}.

(** Every call the program makes into the platform. *)
Inductive Call :=
| GetActivateResult
| QueryInterface
| IUnknown_Release
| AudioClient_Initialize (shareMode streamFlags hnsBufferDuration hnsPeriodicity : Z)
                         (format : WAVEFORMATEX)
| AudioClient_GetBufferSize
| AudioClient_GetService
| AudioClient_Start
| AudioClient_Stop
| CreateThread
| CloseHandle (h : HANDLE)
| Sleep (ms : Z)
| CaptureClient_GetNextPacketSize.

(** What the platform answers.  [GetActivateResult] yields the call's own
    result, the activation result and the raw interface pointer. *)
Record Platform := mkPlatform {
  r_GetActivateResult : HRESULT * HRESULT * ComPtr;
  r_QueryInterface : HRESULT * ComPtr;
  r_Initialize : HRESULT;
  r_GetBufferSize : HRESULT * UINT32;
  r_GetService : HRESULT * ComPtr;
  r_Start : HRESULT;
  r_Stop : HRESULT;
  r_CreateThread : HANDLE
}.

(** The data members of [LoopbackCapture]. *)
Record LoopbackCapture := mkSession {
  m_captureClient : ComPtr;
  m_captureReadyEvent : HANDLE;
  m_captureEvent : HANDLE;
  m_stopEvent : HANDLE;
  bufferFrameCount : UINT32;
  m_captureThread : HANDLE;
  m_capturing : bool;
  m_audioClient : ComPtr
}.

(** The data members of [AudioInterfaceActivateHandler].  There is one
    session, so the back pointer [m_parent] is only null or not. *)
Record ActivateHandler := mkHandler {
  m_parent : bool;
  h_audioClient : ComPtr
}.

(** The packet reader behind [m_captureClient], as a test double: the
    packets queued in the ring buffer, and the results scripted for the next
    calls of [GetNextPacketSize] (success once the script is used up). *)
Record Stream := mkStream {
  queue : list AudioPacket;
  script : list HRESULT
}.

Record World := mkWorld {
  ses : LoopbackCapture;
  hnd : ActivateHandler;
  strm : Stream;
  log : list Call
}.

(** *** A state monad with a fault for a null dereference *)

Inductive Res (A : Type) :=
| Ok (a : A) (w : World)
| NullDeref (w : World).
Arguments Ok {A} a w.
Arguments NullDeref {A} w.

Definition M (A : Type) := World -> Res A.

Definition ret {A} (a : A) : M A := fun w => Ok a w.

Definition bind {A B} (m : M A) (k : A -> M B) : M B :=
  fun w => match m w with
           | Ok a w' => k a w'
           | NullDeref w' => NullDeref w'
           end.

Notation "x <- m ;; k" := (bind m (fun x => k))
  (at level 61, m at next level, right associativity).
Notation "m ;;; k" := (bind m (fun _ => k))
  (at level 61, right associativity).

Definition call (c : Call) : M unit :=
  fun w => Ok tt (mkWorld (ses w) (hnd w) (strm w) (log w ++ [c])).

Definition get_ses : M LoopbackCapture := fun w => Ok (ses w) w.

Definition set_ses (f : LoopbackCapture -> LoopbackCapture) : M unit :=
  fun w => Ok tt (mkWorld (f (ses w)) (hnd w) (strm w) (log w)).

Definition get_hnd : M ActivateHandler := fun w => Ok (hnd w) w.

Definition set_hnd (f : ActivateHandler -> ActivateHandler) : M unit :=
  fun w => Ok tt (mkWorld (ses w) (f (hnd w)) (strm w) (log w)).

(** [p->method()]: a fault when [p] is null, the logged call otherwise. *)
Definition deref (p : ComPtr) (c : Call) : M unit :=
  match p with
  | Some _ => call c
  | None => fun w => NullDeref w
  end.

(** Field updates. *)
Definition with_captureClient (v : ComPtr) (s : LoopbackCapture) :=
  mkSession v (m_captureReadyEvent s) (m_captureEvent s) (m_stopEvent s)
            (bufferFrameCount s) (m_captureThread s) (m_capturing s)
            (m_audioClient s).
Definition with_captureEvent (v : HANDLE) (s : LoopbackCapture) :=
  mkSession (m_captureClient s) (m_captureReadyEvent s) v (m_stopEvent s)
            (bufferFrameCount s) (m_captureThread s) (m_capturing s)
            (m_audioClient s).
Definition with_bufferFrameCount (v : UINT32) (s : LoopbackCapture) :=
  mkSession (m_captureClient s) (m_captureReadyEvent s) (m_captureEvent s)
            (m_stopEvent s) v (m_captureThread s) (m_capturing s)
            (m_audioClient s).
Definition with_captureThread (v : HANDLE) (s : LoopbackCapture) :=
  mkSession (m_captureClient s) (m_captureReadyEvent s) (m_captureEvent s)
            (m_stopEvent s) (bufferFrameCount s) v (m_capturing s)
            (m_audioClient s).
Definition with_capturing (v : bool) (s : LoopbackCapture) :=
  mkSession (m_captureClient s) (m_captureReadyEvent s) (m_captureEvent s)
            (m_stopEvent s) (bufferFrameCount s) (m_captureThread s) v
            (m_audioClient s).
Definition with_audioClient (v : ComPtr) (s : LoopbackCapture) :=
  mkSession (m_captureClient s) (m_captureReadyEvent s) (m_captureEvent s)
            (m_stopEvent s) (bufferFrameCount s) (m_captureThread s)
            (m_capturing s) v.

(** *** [LoopbackCapture::OnAudioClientReady] (lines 138-208) *)

(** The local [captureFormat], with the integer widths of its fields. *)
Definition captureFormat : WAVEFORMATEX :=
  let channels := 2 in
  let rate := 44100 in
  let bits := 16 in
  let blockAlign := to_word (channels * bits / 8) in
  let avgBytes := to_dword (rate * blockAlign) in
  mkWaveFormat WAVE_FORMAT_PCM channels rate avgBytes blockAlign bits 0.

Definition OnAudioClientReady (p : Platform) : M HRESULT :=
  s <- get_ses ;;
  match m_audioClient s with
  | None => ret E_FAIL
  | Some _ =>
    (* the result of Initialize is overwritten by the next call, unread *)
    call (AudioClient_Initialize
            AUDCLNT_SHAREMODE_SHARED
            (Z.lor AUDCLNT_STREAMFLAGS_LOOPBACK AUDCLNT_STREAMFLAGS_EVENTCALLBACK)
            200000
            AUDCLNT_STREAMFLAGS_AUTOCONVERTPCM
            captureFormat) ;;;
    let hr := r_Initialize p in
    call AudioClient_GetBufferSize ;;;
    let hr := fst (r_GetBufferSize p) in
    (if FAILED hr then ret tt
     else set_ses (with_bufferFrameCount (snd (r_GetBufferSize p)))) ;;;
    if FAILED hr then ret hr
    else if FAILED hr then ret hr
    else
      call AudioClient_GetService ;;;
      let hr := fst (r_GetService p) in
      set_ses (with_captureClient
                 (if FAILED hr then None else snd (r_GetService p))) ;;;
      if FAILED hr then ret hr
      else
        call AudioClient_Start ;;;
        let hr := r_Start p in
        if FAILED hr then ret hr
        else
          set_ses (with_capturing true) ;;;
          call CreateThread ;;;
          set_ses (with_captureThread (r_CreateThread p)) ;;;
          ret hr
  end.

(** *** [AudioInterfaceActivateHandler::ActivateCompleted] (lines 22-56) *)

Definition is_null (p : ComPtr) : bool :=
  match p with None => true | Some _ => false end.

Definition ActivateCompleted (p : Platform) : M HRESULT :=
  call GetActivateResult ;;;
  let '(hr, activateResult, punkAudioInterface) := r_GetActivateResult p in
  if FAILED hr || FAILED activateResult || is_null punkAudioInterface
  then ret E_FAIL
  else
    call QueryInterface ;;;
    let hr := fst (r_QueryInterface p) in
    set_hnd (fun h => mkHandler (m_parent h)
               (if FAILED hr then None else snd (r_QueryInterface p))) ;;;
    if FAILED hr then
      call IUnknown_Release ;;;
      ret hr
    else
      h <- get_hnd ;;
      (if m_parent h then
         set_ses (with_audioClient (h_audioClient h)) ;;;
         _ <- OnAudioClientReady p ;;
         ret tt
       else ret tt) ;;;
      call IUnknown_Release ;;;
      ret S_OK.

(** *** [LoopbackCapture::StopCapture] (lines 210-229) *)

Definition StopCapture (p : Platform) : M HRESULT :=
  s <- get_ses ;;
  if negb (m_capturing s) then ret S_OK
  else
    set_ses (with_capturing false) ;;;
    (if negb (m_captureThread s =? NULL) then
       call (CloseHandle (m_captureThread s)) ;;;
       set_ses (with_captureThread NULL)
     else ret tt) ;;;
    deref (m_audioClient s) AudioClient_Stop ;;;
    let hr := r_Stop p in
    call (CloseHandle (m_captureEvent s)) ;;;
    set_ses (with_captureEvent NULL) ;;;
    ret hr.

(** *** [LoopbackCapture::CaptureThread] (lines 238-308) *)

(** [IAudioCaptureClient::GetNextPacketSize] on the test double: the frame
    count of the packet at the head of the queue (zero when none is queued).
    It does not advance the queue; a scripted failure leaves the out
    parameter untouched. *)
Definition head_frames (q : list AudioPacket) : UINT32 :=
  match q with
  | [] => 0
  | pkt :: _ => frameCount pkt
  end.

Definition GetNextPacketSize (packetLength : UINT32) (st : Stream)
  : HRESULT * UINT32 * Stream :=
  match script st with
  | [] => (S_OK, head_frames (queue st), st)
  | hr :: rest =>
    (hr, if FAILED hr then packetLength else head_frames (queue st),
     mkStream (queue st) rest)
  end.

(** [m_captureClient->GetNextPacketSize(&packetLength)] *)
Definition poll (packetLength : UINT32) : M (HRESULT * UINT32) :=
  fun w =>
    match m_captureClient (ses w) with
    | None => NullDeref w
    | Some _ =>
      let '(hr, len, st) := GetNextPacketSize packetLength (strm w) in
      Ok (hr, len)
         (mkWorld (ses w) (hnd w) st (log w ++ [CaptureClient_GetNextPacketSize]))
    end.

(** The body of the [while (m_capturing)] loop.  Everything after the
    [FAILED] test is commented out in the source, so both branches fall
    through to the loop test. *)
Definition CaptureThread_body : M unit :=
  call (Sleep 10) ;;;
  let packetLength := 0 in
  r <- poll packetLength ;;
  let '(hr, packetLength) := r in
  if FAILED hr then ret tt
  else ret tt.

(** The loop, run for at most [fuel] iterations: [true] when the loop test
    found [m_capturing] cleared and the thread function returned. *)
Fixpoint CaptureThread (fuel : nat) : M bool :=
  match fuel with
  | O => ret false
  | S n =>
    s <- get_ses ;;
    if m_capturing s then CaptureThread_body ;;; CaptureThread n
    else ret true
  end.

(** *** The two threads of a session, interleaved

    [StopCapture] runs on the caller's thread while [CaptureThread] runs on
    its own; the only variable both touch is the atomic [m_capturing].  Each
    thread is cut at its accesses to shared state and at its platform
    calls. *)

Inductive stop_pc :=
| Stop_entry
| Stop_clear_flag
| Stop_close_thread
| Stop_stream
| Stop_close_event (hr : HRESULT)
| Stop_returned (hr : HRESULT).

Inductive thread_pc :=
| Thread_test
| Thread_body
| Thread_exited.

Inductive tid := Caller | Capture.

Record Sys := mkSys {
  world : World;
  caller : stop_pc;
  thread : thread_pc
}.

Definition upd_ses (f : LoopbackCapture -> LoopbackCapture) (w : World) : World :=
  mkWorld (f (ses w)) (hnd w) (strm w) (log w).

Definition add_log (c : Call) (w : World) : World :=
  mkWorld (ses w) (hnd w) (strm w) (log w ++ [c]).

(** One step of the caller inside [StopCapture]; [None] when it has
    returned or faults on a null [m_audioClient]. *)
Definition stop_step (p : Platform) (w : World) (pc : stop_pc)
  : option (World * stop_pc) :=
  match pc with
  | Stop_entry =>
    if negb (m_capturing (ses w)) then Some (w, Stop_returned S_OK)
    else Some (w, Stop_clear_flag)
  | Stop_clear_flag => Some (upd_ses (with_capturing false) w, Stop_close_thread)
  | Stop_close_thread =>
    if negb (m_captureThread (ses w) =? NULL)
    then Some (upd_ses (with_captureThread NULL)
                 (add_log (CloseHandle (m_captureThread (ses w))) w), Stop_stream)
    else Some (w, Stop_stream)
  | Stop_stream =>
    match m_audioClient (ses w) with
    | None => None
    | Some _ => Some (add_log AudioClient_Stop w, Stop_close_event (r_Stop p))
    end
  | Stop_close_event hr =>
    Some (upd_ses (with_captureEvent NULL)
            (add_log (CloseHandle (m_captureEvent (ses w))) w), Stop_returned hr)
  | Stop_returned _ => None
  end.

(** One step of the capture thread: the loop test, or one loop body. *)
Definition thread_step (w : World) (pc : thread_pc)
  : option (World * thread_pc) :=
  match pc with
  | Thread_test =>
    if m_capturing (ses w) then Some (w, Thread_body)
    else Some (w, Thread_exited)
  | Thread_body =>
    match CaptureThread_body w with
    | Ok _ w' => Some (w', Thread_test)
    | NullDeref _ => None
    end
  | Thread_exited => None
  end.

(** The scheduler picks a thread; a thread that cannot move leaves the
    system as it is. *)
Definition sys_step (p : Platform) (t : tid) (s : Sys) : Sys :=
  match t with
  | Caller =>
    match stop_step p (world s) (caller s) with
    | Some (w, pc) => mkSys w pc (thread s)
    | None => s
    end
  | Capture =>
    match thread_step (world s) (thread s) with
    | Some (w, pc) => mkSys w (caller s) pc
    | None => s
    end
  end.

Definition run (p : Platform) (sched : list tid) (s : Sys) : Sys :=
  fold_left (fun s t => sys_step p t s) sched s.

End LoopbackTest.

(** ** ApplicationLoopback.cpp *)

Module ApplicationLoopback.

(** A wide string, as its 16-bit code units without the terminating NUL. *)
Definition wstring := list Z.

Definition wstr (s : string) : wstring :=
  map (fun c => Z.of_N (N_of_ascii c)) (list_ascii_of_string s).

(** [wcscmp]: the sign of the first differing code unit, the shorter string
    ordered first. *)
Fixpoint wcscmp (a b : wstring) : Z :=
  match a, b with
  | [], [] => 0
  | [], _ :: _ => -1
  | _ :: _, [] => 1
  | x :: a', y :: b' =>
    if x <? y then -1
    else if y <? x then 1
    else wcscmp a' b'
  end.

(** What one run of the executable did: its exit code and, when it got
    that far, the arguments it gave to [StartCaptureAsync]. *)
Record Run := mkRun {
  exit_code : Z;
  request : option (DWORD * bool)
}.

Section Main.

(** The C runtime and the capture class of [LoopbackCapture.h] are outside
    the translation unit. *)
Variable wcstoul : wstring -> Z.
Variable setmode : Z.
Variable StartCaptureAsync : DWORD -> bool -> HRESULT.

(** Lines 27-32: the local [include]. *)
Definition include_flag (argv : list wstring) : bool :=
  let argc := Z.of_nat (List.length argv) in
  let include := true in
  if 3 <=? argc then
    if wcscmp (nth 2 argv []) (wstr "exclude") =? 0 then false
    else include
  else include.

Definition wmain (argv : list wstring) : Run :=
  let argc := Z.of_nat (List.length argv) in
  if argc <? 2 then mkRun 0 None
  else
    let processId := to_dword (wcstoul (nth 1 argv [])) in
    if processId =? 0 then mkRun 1 None
    else
      let include := include_flag argv in
      if setmode =? -1 then mkRun 1 None
      else
        let hr := StartCaptureAsync processId include in
        if FAILED hr then mkRun 1 (Some (processId, include))
        else mkRun 0 (Some (processId, include)).

End Main.

End ApplicationLoopback.

(** ** ProcessList.cpp *)

Module ProcessList.

Local Open Scope string_scope.

(** A top-level window as USER32 and PSAPI report it: its handle (a 64-bit
    pointer value), [IsWindowVisible], its text in the ANSI code page, the
    owning process id, and the owner's module base name ([None] when
    [OpenProcess] fails, [Some None] when [GetModuleBaseNameA] does). *)
Record Window := mkWindow {
  hwnd : Z;
  visible : bool;
  text : string;
  owner : DWORD;
  module : option (option string)
}.

Record WindowInfo := mkInfo {
  windowHandle : Z;
  windowTitle : string;
  processName : string;
  processId : DWORD
}.

Definition NUL : ascii := Ascii.zero.

Fixpoint take (n : nat) (s : string) : string :=
  match n, s with
  | O, _ => EmptyString
  | _, EmptyString => EmptyString
  | S n', String c s' => String c (take n' s')
  end.

(** The bytes of a character buffer up to its first NUL: what [strlen]
    counts and what assigning a [char*] to a [std::string] copies. *)
Fixpoint c_str (buf : string) : string :=
  match buf with
  | EmptyString => EmptyString
  | String c rest =>
    if Ascii.eqb c NUL then EmptyString else String c (c_str rest)
  end.

Definition strlen (buf : string) : nat := String.length (c_str buf).

(** [GetWindowTextA(hwnd, buf, nMaxCount)]: at most [nMaxCount - 1] bytes
    of the text, then a terminating NUL. *)
Definition GetWindowTextA (w : Window) (nMaxCount : nat) : string :=
  take (nMaxCount - 1) (text w) ++ String NUL EmptyString.

(** Lines 31-76.  The callback appends to the vector behind [lParam] and
    always answers [TRUE]. *)
Definition EnumWindowsProc (w : Window) (windows : list WindowInfo)
  : bool * list WindowInfo :=
  if visible w then
    let windowTitle := GetWindowTextA w 256 in
    if (0 <? strlen windowTitle)%nat then
      let name :=
        match module w with
        | Some (Some processName) => c_str processName
        | Some None => "Unknown"
        | None => "Unknown"
        end in
      let info := mkInfo (hwnd w) (c_str windowTitle) name (owner w) in
      (true, (windows ++ [info])%list)
    else (true, windows)
  else (true, windows).

(** [EnumWindows]: the callback on every top-level window in the platform's
    order, until it answers [FALSE]. *)
Fixpoint EnumWindows (desktop : list Window) (windows : list WindowInfo)
  : list WindowInfo :=
  match desktop with
  | [] => windows
  | w :: rest =>
    let '(continue, windows') := EnumWindowsProc w windows in
    if continue then EnumWindows rest windows' else windows'
  end.

(** [std::cout << n] for an unsigned integer. *)
Definition dec (n : Z) : string :=
  NilZero.string_of_uint (N.to_uint (Z.to_N n)).

(** [(unsigned long)app.windowHandle]: 32 bits on Windows. *)
Definition to_ulong (h : Z) : Z := h mod 2 ^ 32.

Definition LF : string := String (ascii_of_nat 10) EmptyString.

(** One iteration of the loop of [PrintApplicationsWithWindows]. *)
Definition print_record (app : WindowInfo) : string :=
  dec (processId app) ++ ";" ++ dec (to_ulong (windowHandle app)) ++ ";"
  ++ windowTitle app ++ LF.

(** Lines 78-87. *)
Fixpoint PrintApplicationsWithWindows (apps : list WindowInfo) : string :=
  match apps with
  | [] => ""
  | app :: rest => print_record app ++ PrintApplicationsWithWindows rest
  end.

Definition is_empty (s : string) : bool :=
  match s with EmptyString => true | _ => false end.

(** The vector [appsWithTitles] of [main]. *)
Definition appsWithTitles (desktop : list Window) : list WindowInfo :=
  let windowApps := EnumWindows desktop [] in
  filter (fun app => negb (is_empty (windowTitle app))) windowApps.

(** Standard output of [main]. *)
Definition main (desktop : list Window) : string :=
  PrintApplicationsWithWindows (appsWithTitles desktop).

End ProcessList.

(** ** The listing the enumerator is expected to print *)

Module Listing.

Import ProcessList.
Local Open Scope string_scope.

(** The title the callback stores for a window: its text cut to 255 bytes,
    read as a C string. *)
Definition title_read (w : Window) : string := c_str (take 255 (text w)).

(** The windows that get a record. *)
Definition listed (w : Window) : bool :=
  visible w && negb (is_empty (title_read w)).

(** The record stored for a listed window. *)
Definition info_of (w : Window) : WindowInfo :=
  mkInfo (hwnd w) (title_read w)
         match module w with
         | Some (Some processName) => c_str processName
         | _ => "Unknown"
         end
         (owner w).

(** The line printed for a listed window. *)
Definition line_of (w : Window) : string :=
  dec (owner w) ++ ";" ++ dec (hwnd w mod 2 ^ 32) ++ ";" ++ title_read w ++ LF.

Fixpoint lines (ws : list Window) : string :=
  match ws with
  | [] => ""
  | w :: rest => line_of w ++ lines rest
  end.

(** The records collected from a desktop, window by window. *)
Fixpoint records (desktop : list Window) : list WindowInfo :=
  match desktop with
  | [] => []
  | w :: rest => ((if listed w then [info_of w] else []) ++ records rest)%list
  end.

Fixpoint is_prefix (a b : string) : bool :=
  match a, b with
  | EmptyString, _ => true
  | String x a', String y b' => Ascii.eqb x y && is_prefix a' b'
  | String _ _, EmptyString => false
  end.

Fixpoint has_NUL (s : string) : bool :=
  match s with
  | EmptyString => false
  | String c rest => Ascii.eqb c NUL || has_NUL rest
  end.

End Listing.

(** ** Measurements and concrete scenarios used by the statements below *)

Module Scenario.

Import LoopbackTest.

(** The calls of a log that release the raw activation result. *)
Definition is_release (c : Call) : bool :=
  match c with IUnknown_Release => true | _ => false end.

Definition releases (l : list Call) : nat := List.length (filter is_release l).

(** The references to the raw activation result that the callback owns
    after [GetActivateResult]: one when the pointer is not null. *)
Definition owned_refs (p : Platform) : nat :=
  if is_null (snd (r_GetActivateResult p)) then 0%nat else 1%nat.

Definition is_create_thread (c : Call) : bool :=
  match c with CreateThread => true | _ => false end.

Definition threads_spawned (l : list Call) : nat :=
  List.length (filter is_create_thread l).

(** The buffer duration an [Initialize] call asks for, in milliseconds. *)
Definition requested_ms (c : Call) : option Z :=
  match c with
  | AudioClient_Initialize _ _ hnsBufferDuration _ _ =>
    Some (hnsBufferDuration / REFTIMES_PER_MILLISEC)
  | _ => None
  end.

(** Frames of audio that fit in [ms] milliseconds at the format's rate. *)
Definition frames_in (fmt : WAVEFORMATEX) (ms : Z) : Z :=
  nSamplesPerSec fmt * ms / 1000.

(** What [k] iterations of the capture loop log. *)
Fixpoint polls (k : nat) : list Call :=
  match k with
  | O => []
  | S n => Sleep 10 :: CaptureClient_GetNextPacketSize :: polls n
  end.

(** The session and the log a stop of a running session leaves behind. *)
Definition stopped_world (w : World) : World :=
  mkWorld
    (with_captureEvent NULL (with_captureThread NULL (with_capturing false (ses w))))
    (hnd w) (strm w)
    (log w
     ++ (if m_captureThread (ses w) =? NULL then []
         else [CloseHandle (m_captureThread (ses w))])
     ++ [AudioClient_Stop; CloseHandle (m_captureEvent (ses w))]).

(** A platform on which every call succeeds. *)
Definition healthy : Platform :=
  mkPlatform (S_OK, S_OK, Some 1%nat) (S_OK, Some 2%nat) S_OK (S_OK, 882)
             (S_OK, Some 3%nat) S_OK S_OK 0x1A4.

Definition with_Initialize (hr : HRESULT) (p : Platform) : Platform :=
  mkPlatform (r_GetActivateResult p) (r_QueryInterface p) hr (r_GetBufferSize p)
             (r_GetService p) (r_Start p) (r_Stop p) (r_CreateThread p).

Definition with_GetBufferSize (r : HRESULT * UINT32) (p : Platform) : Platform :=
  mkPlatform (r_GetActivateResult p) (r_QueryInterface p) (r_Initialize p) r
             (r_GetService p) (r_Start p) (r_Stop p) (r_CreateThread p).

Definition with_GetActivateResult (r : HRESULT * HRESULT * ComPtr) (p : Platform)
  : Platform :=
  mkPlatform r (r_QueryInterface p) (r_Initialize p) (r_GetBufferSize p)
             (r_GetService p) (r_Start p) (r_Stop p) (r_CreateThread p).

(** A session as the constructor leaves it. *)
Definition fresh_session : LoopbackCapture :=
  mkSession None 0x10 0x14 0x18 0 NULL false None.

(** A session after a successful [OnAudioClientReady]. *)
Definition running_session : LoopbackCapture :=
  mkSession (Some 3%nat) 0x10 0x14 0x18 882 0x1A4 true (Some 2%nat).

Definition packet (tag : Z) : AudioPacket := mkPacket 960 [tag; tag + 1] 0.

Definition three_packets : Stream :=
  mkStream [packet 10; packet 20; packet 30] [].

Definition three_failures : Stream :=
  mkStream [packet 10] [E_FAIL; E_FAIL; E_FAIL].

Definition handler : ActivateHandler := mkHandler true None.

Definition fresh_world : World := mkWorld fresh_session handler three_packets [].

Definition activated_world : World :=
  mkWorld (with_audioClient (Some 2%nat) fresh_session) handler three_packets [].

Definition running_world : World :=
  mkWorld running_session handler three_packets [].

Definition failing_world : World :=
  mkWorld running_session handler three_failures [].

(** What every interleaving preserves: the packet reader stays in place,
    and once the caller is past its store to [m_capturing] the flag is
    clear. *)
Definition stop_inv (s : Sys) : Prop :=
  m_captureClient (ses (world s)) <> None /\
  match caller s with
  | Stop_entry | Stop_clear_flag => True
  | _ => m_capturing (ses (world s)) = false
  end.

End Scenario.

(** ** The life of a [LoopbackCapture] object (lines 82-104) *)

Module Lifecycle.

Import LoopbackTest.

Definition COINIT_MULTITHREADED : Z := 0.

(** The calls of the constructor and the destructor, around those of the
    session in between. *)
Inductive SysCall :=
| CoInitializeEx (dwCoInit : Z)
| CreateEvent (bManualReset bInitialState : bool)
| CoUninitialize
| Session (c : Call).

(** What the constructor starts from: the handles the three [CreateEvent]
    calls return, and whatever the two members it does not assign,
    [bufferFrameCount] and [m_captureThread], happen to hold. *)
Record Birth := mkBirth {
  ev_ready : HANDLE;
  ev_stop : HANDLE;
  ev_capture : HANDLE;
  junk_frames : UINT32;
  junk_thread : HANDLE
}.

(** [LoopbackCapture()]: the session, the handler made for it with its
    parent set, and the calls in source order. *)
Definition construct (b : Birth)
  : LoopbackCapture * ActivateHandler * list SysCall :=
  (mkSession None (ev_ready b) (ev_capture b) (ev_stop b)
             (junk_frames b) (junk_thread b) false None,
   mkHandler true None,
   [CoInitializeEx COINIT_MULTITHREADED;
    CreateEvent true false; CreateEvent true false; CreateEvent false false]).

(** [~LoopbackCapture()] *)
Definition destroy (s : LoopbackCapture) : list SysCall :=
  [Session (CloseHandle (m_captureReadyEvent s));
   Session (CloseHandle (m_stopEvent s));
   Session (CloseHandle (m_captureEvent s));
   CoUninitialize].

(** An object constructed, used by [body] and destroyed: the result of
    [body] and every call from construction to destruction, or [None] when
    [body] faults. *)
Definition lifetime {A : Type} (b : Birth) (st : Stream) (body : M A)
  : option (A * list SysCall) :=
  let '(s, h, born) := construct b in
  match body (mkWorld s h st []) with
  | Ok a w => Some (a, born ++ map Session (log w) ++ destroy (ses w))
  | NullDeref _ => None
  end.

(** Counting calls. *)
Definition is_close (h : HANDLE) (c : Call) : bool :=
  match c with CloseHandle h' => h' =? h | _ => false end.


Definition count (f : Call -> bool) (l : list Call) : nat :=
  List.length (filter f l).

(** The session's calls within a lifetime. *)
Fixpoint session_calls (t : list SysCall) : list Call :=
  match t with
  | [] => []
  | Session c :: rest => c :: session_calls rest
  | _ :: rest => session_calls rest
  end.

Definition closes (h : HANDLE) (t : list SysCall) : nat :=
  count (is_close h) (session_calls t).

(** The three event handles are valid and different, and [thread] is none
    of them. *)
Definition handles_apart (b : Birth) (thread : HANDLE) : bool :=
  negb (ev_ready b =? NULL) && negb (ev_stop b =? NULL)
  && negb (ev_capture b =? NULL)
  && negb (ev_ready b =? ev_stop b) && negb (ev_ready b =? ev_capture b)
  && negb (ev_stop b =? ev_capture b)
  && negb (thread =? ev_ready b) && negb (thread =? ev_stop b)
  && negb (thread =? ev_capture b).

(** Whether every tested step of the initialisation chain succeeds. *)
Definition chain_ok (p : Platform) : bool :=
  negb (FAILED (fst (r_GetBufferSize p)))
  && negb (FAILED (fst (r_GetService p)))
  && negb (FAILED (r_Start p)).

(** Whether the callback gets past its first test. *)
Definition activation_ok (p : Platform) : bool :=
  let '(hr, activateResult, punk) := r_GetActivateResult p in
  negb (FAILED hr || FAILED activateResult || is_null punk).


Definition with_junk (frames : UINT32) (thread : HANDLE) (b : Birth) : Birth :=
  mkBirth (ev_ready b) (ev_stop b) (ev_capture b) frames thread.

Definition with_Start (hr : HRESULT) (p : Platform) : Platform :=
  mkPlatform (r_GetActivateResult p) (r_QueryInterface p) (r_Initialize p)
             (r_GetBufferSize p) (r_GetService p) hr (r_Stop p) (r_CreateThread p).

Definition with_CreateThread (h : HANDLE) (p : Platform) : Platform :=
  mkPlatform (r_GetActivateResult p) (r_QueryInterface p) (r_Initialize p)
             (r_GetBufferSize p) (r_GetService p) (r_Start p) (r_Stop p) h.

(** The calls logged after the first [AudioClient_Stop], if there is one. *)
Fixpoint after_stop (l : list Call) : option (list Call) :=
  match l with
  | [] => None
  | AudioClient_Stop :: rest => Some rest
  | _ :: rest => after_stop rest
  end.

Definition is_poll (c : Call) : bool :=
  match c with CaptureClient_GetNextPacketSize => true | _ => false end.

(** Size queries made on the stream after it was stopped. *)
Definition polls_after_stop (l : list Call) : nat :=
  match after_stop l with
  | None => 0%nat
  | Some rest => count is_poll rest
  end.

(** What the interleavings keep once the stream has been stopped: the flag
    is clear, at most one size query followed the stop, and none yet if the
    thread is still inside its loop body. *)
Definition stopped_inv (s : Sys) : Prop :=
  match after_stop (log (world s)) with
  | None => True
  | Some rest =>
    m_capturing (ses (world s)) = false /\
    match thread s with
    | Thread_body => count is_poll rest = 0%nat
    | _ => (count is_poll rest <= 1)%nat
    end
  end.

Definition birth : Birth := mkBirth 0x10 0x18 0x14 0xCDCDCDCD 0xCDCDCDCD.

End Lifecycle.

(** ** Reading the enumerator's output back *)

Module Reader.

Import ProcessList.
Local Open Scope string_scope.

Definition semicolon : ascii := ascii_of_nat 59.

(** The text before the first [;] and the text after it. *)
Fixpoint field (s : string) : string * string :=
  match s with
  | EmptyString => (EmptyString, EmptyString)
  | String c rest =>
    if Ascii.eqb c semicolon then (EmptyString, rest)
    else let '(f, r) := field rest in (String c f, r)
  end.

Definition is_digit (c : ascii) : bool :=
  let n := nat_of_ascii c in (48 <=? n)%nat && (n <=? 57)%nat.

Fixpoint all_digits (s : string) : bool :=
  match s with
  | EmptyString => true
  | String c rest => is_digit c && all_digits rest
  end.

Definition with_module (m : option (option string)) (w : Window) : Window :=
  mkWindow (hwnd w) (visible w) (text w) (owner w) m.

End Reader.


(** ** Facts about LoopbackTest.cpp *)

Module LoopbackFacts.

Import LoopbackTest Scenario.

Ltac run_monad :=
  unfold bind, ret, call, get_ses, set_ses, get_hnd, set_hnd, deref in *;
  simpl in *.

Lemma FAILED_spec (hr : HRESULT) : FAILED hr = true <-> hr < 0.
Proof. unfold FAILED. apply Z.ltb_lt. Qed.

Lemma releases_app (l1 l2 : list Call) :
  releases (l1 ++ l2) = (releases l1 + releases l2)%nat.
Proof. unfold releases. rewrite filter_app, length_app. reflexivity. Qed.

Lemma threads_spawned_app (l1 l2 : list Call) :
  threads_spawned (l1 ++ l2) = (threads_spawned l1 + threads_spawned l2)%nat.
Proof. unfold threads_spawned. rewrite filter_app, length_app. reflexivity. Qed.

Ltac count_calls :=
  rewrite ?threads_spawned_app, ?releases_app;
  unfold threads_spawned, releases; simpl; lia.

(** *** [OnAudioClientReady] *)

(** The result of [Initialize] never reaches a test: whatever it is, the
    function behaves the same. *)
Lemma OnAudioClientReady_ignores_Initialize (p : Platform) (hr : HRESULT) (w : World) :
  OnAudioClientReady (with_Initialize hr p) w = OnAudioClientReady p w.
Proof. reflexivity. Qed.

(** [OnAudioClientReady] never faults, and the first call it logs is
    [Initialize] with the arguments written in the source. *)
Lemma OnAudioClientReady_first_call (p : Platform) (w : World) (c : nat) :
  m_audioClient (ses w) = Some c ->
  exists hr w' rest,
    OnAudioClientReady p w = Ok hr w' /\
    log w' = log w ++
      AudioClient_Initialize AUDCLNT_SHAREMODE_SHARED
        (Z.lor AUDCLNT_STREAMFLAGS_LOOPBACK AUDCLNT_STREAMFLAGS_EVENTCALLBACK)
        200000 AUDCLNT_STREAMFLAGS_AUTOCONVERTPCM captureFormat :: rest.
Proof.
  intros Hc. unfold OnAudioClientReady. run_monad. rewrite Hc.
  destruct (FAILED (fst (r_GetBufferSize p))); simpl.
  - eexists _, _, _. split; [reflexivity|]. simpl.
    rewrite <- app_assoc. reflexivity.
  - destruct (FAILED (fst (r_GetService p))); simpl.
    + eexists _, _, _. split; [reflexivity|]. simpl.
      repeat rewrite <- app_assoc. reflexivity.
    + destruct (FAILED (r_Start p)); simpl;
        eexists _, _, _; (split; [reflexivity|]); simpl;
        repeat rewrite <- app_assoc; reflexivity.
Qed.

(** A failure of the buffer-size query, of the packet-reader acquisition or
    of the stream start is returned as it is; the flag stays as it was and
    no thread is created. *)
Lemma OnAudioClientReady_later_failure (p : Platform) (w w' : World) (hr : HRESULT) :
  OnAudioClientReady p w = Ok hr w' ->
  FAILED hr = true ->
  m_capturing (ses w') = m_capturing (ses w) /\
  threads_spawned (log w') = threads_spawned (log w) /\
  (m_audioClient (ses w) = None /\ hr = E_FAIL \/
   hr = fst (r_GetBufferSize p) \/
   hr = fst (r_GetService p) \/
   hr = r_Start p).
Proof.
  unfold OnAudioClientReady. run_monad.
  destruct (m_audioClient (ses w)) eqn:Hc; simpl.
  - destruct (FAILED (fst (r_GetBufferSize p))) eqn:H1; simpl.
    + intros H _. inversion H; subst; simpl.
      split; [reflexivity|]. split; [count_calls | auto].
    + destruct (FAILED (fst (r_GetService p))) eqn:H2; simpl.
      * intros H _. inversion H; subst; simpl.
        split; [reflexivity|]. split; [count_calls | auto].
      * destruct (FAILED (r_Start p)) eqn:H3; simpl.
        -- intros H _. inversion H; subst; simpl.
           split; [reflexivity|]. split; [count_calls | auto 6].
        -- intros H F. inversion H; subst. congruence.
  - intros H _. inversion H; subst. auto.
Qed.

(** When every test passes, the flag is set and one thread is created. *)
Lemma OnAudioClientReady_success (p : Platform) (w w' : World) (hr : HRESULT) :
  OnAudioClientReady p w = Ok hr w' ->
  FAILED hr = false ->
  m_capturing (ses w') = true /\
  threads_spawned (log w') = S (threads_spawned (log w)) /\
  m_captureThread (ses w') = r_CreateThread p /\
  hr = r_Start p.
Proof.
  unfold OnAudioClientReady. run_monad.
  destruct (m_audioClient (ses w)) eqn:Hc; simpl.
  - destruct (FAILED (fst (r_GetBufferSize p))) eqn:H1; simpl.
    + intros H F. inversion H; subst. congruence.
    + destruct (FAILED (fst (r_GetService p))) eqn:H2; simpl.
      * intros H F. inversion H; subst. congruence.
      * destruct (FAILED (r_Start p)) eqn:H3; simpl.
        -- intros H F. inversion H; subst. congruence.
        -- intros H _. inversion H; subst; simpl.
           split; [reflexivity|]. split; [count_calls | auto].
  - intros H F. inversion H; subst. discriminate.
Qed.

(** The first failure among the buffer-size query, the packet-reader
    acquisition and the stream start is what [OnAudioClientReady] returns;
    the flag is left as it was and no thread is created. *)
Lemma OnAudioClientReady_reports_later_failures (p : Platform) (w : World) (a : nat) :
  m_audioClient (ses w) = Some a ->
  FAILED (fst (r_GetBufferSize p)) || FAILED (fst (r_GetService p))
    || FAILED (r_Start p) = true ->
  exists w',
    OnAudioClientReady p w
      = Ok (if FAILED (fst (r_GetBufferSize p)) then fst (r_GetBufferSize p)
            else if FAILED (fst (r_GetService p)) then fst (r_GetService p)
            else r_Start p) w' /\
    m_capturing (ses w') = m_capturing (ses w) /\
    m_captureThread (ses w') = m_captureThread (ses w) /\
    threads_spawned (log w') = threads_spawned (log w).
Proof.
  intros Ha Hfail. unfold OnAudioClientReady. run_monad. rewrite Ha.
  destruct (FAILED (fst (r_GetBufferSize p))) eqn:H1; simpl.
  - eexists. split; [reflexivity|]. simpl.
    split; [reflexivity|]. split; [reflexivity | count_calls].
  - destruct (FAILED (fst (r_GetService p))) eqn:H2; simpl.
    + eexists. split; [reflexivity|]. simpl.
      split; [reflexivity|]. split; [reflexivity | count_calls].
    + destruct (FAILED (r_Start p)) eqn:H3; simpl.
      * eexists. split; [reflexivity|]. simpl.
        split; [reflexivity|]. split; [reflexivity | count_calls].
      * simpl in Hfail. discriminate.
Qed.

Lemma OnAudioClientReady_reports_later_failures_witness :
  let p := with_GetBufferSize (AUDCLNT_E_NOT_INITIALIZED, 0) healthy in
  m_audioClient (ses activated_world) = Some 2%nat /\
  exists w',
    OnAudioClientReady p activated_world = Ok AUDCLNT_E_NOT_INITIALIZED w' /\
    m_capturing (ses w') = false /\
    m_captureThread (ses w') = NULL /\
    threads_spawned (log w') = 0%nat.
Proof.
  cbv zeta. split; [reflexivity|].
  exact (OnAudioClientReady_reports_later_failures
           (with_GetBufferSize (AUDCLNT_E_NOT_INITIALIZED, 0) healthy)
           activated_world 2%nat eq_refl eq_refl).
Defined.


(** C3.  The claim asks that a failure of any step of the chain, stream
    initialisation included, ends in the failed state with that step's
    error code, no thread and the flag unset.  The code does not test the
    result of [Initialize].  On a platform whose [Initialize] answers
    [E_INVALIDARG] while the later calls succeed, [OnAudioClientReady]
    behaves exactly as on the healthy platform: it returns [S_OK], sets
    [m_capturing] and creates the thread.  When the buffer-size query then
    fails with [AUDCLNT_E_NOT_INITIALIZED], it is that later code which is
    returned, not the originating one. *)
Theorem OnAudioClientReady_Initialize_failure_unnoticed :
  OnAudioClientReady (with_Initialize E_INVALIDARG healthy) activated_world
    = OnAudioClientReady healthy activated_world /\
  (exists w,
      OnAudioClientReady (with_Initialize E_INVALIDARG healthy) activated_world
        = Ok S_OK w /\
      m_capturing (ses w) = true /\
      threads_spawned (log w) = 1%nat) /\
  (exists w,
      OnAudioClientReady
        (with_GetBufferSize (AUDCLNT_E_NOT_INITIALIZED, 0)
           (with_Initialize E_INVALIDARG healthy)) activated_world
        = Ok AUDCLNT_E_NOT_INITIALIZED w) /\
  AUDCLNT_E_NOT_INITIALIZED <> E_INVALIDARG /\
  FAILED E_INVALIDARG = true.
Proof.
  split; [reflexivity|].
  split; [eexists; split; [cbv; reflexivity|split; reflexivity]|].
  split; [eexists; cbv; reflexivity|].
  split; [discriminate | reflexivity].
Qed.

(** *** The requested buffer duration *)

(** C4, as stated, fails: the [Initialize] call logged on the healthy
    platform asks for 20 milliseconds, which is less than 200. *)
Lemma requested_buffer_is_not_200ms :
  exists hr w c,
    OnAudioClientReady healthy activated_world = Ok hr w /\
    nth_error (log w) 0 = Some c /\
    requested_ms c = Some 20 /\
    ~ (200 <= 20).
Proof.
  eexists _, _, _. split; [cbv; reflexivity|].
  split; [reflexivity|]. split; [reflexivity | lia].
Qed.

(** C4 (amended).  With a stream-control object in place, the first call
    of [OnAudioClientReady] is [Initialize] with a buffer duration of
    200000 units of 100 ns, that is 20 milliseconds, at the fixed format:
    stereo, 16 bits, 44100 Hz, 4 bytes per frame.  That is room for 882
    frames; 200 milliseconds would be 8820. *)
Theorem OnAudioClientReady_requests_20ms (p : Platform) (w : World) (a : nat) :
  m_audioClient (ses w) = Some a ->
  exists hr w' c,
    OnAudioClientReady p w = Ok hr w' /\
    nth_error (log w') (List.length (log w)) = Some c /\
    c = AudioClient_Initialize AUDCLNT_SHAREMODE_SHARED
          (Z.lor AUDCLNT_STREAMFLAGS_LOOPBACK AUDCLNT_STREAMFLAGS_EVENTCALLBACK)
          200000 AUDCLNT_STREAMFLAGS_AUTOCONVERTPCM captureFormat /\
    requested_ms c = Some 20 /\
    nChannels captureFormat = 2 /\
    wBitsPerSample captureFormat = 16 /\
    nSamplesPerSec captureFormat = 44100 /\
    nBlockAlign captureFormat = 4 /\
    frames_in captureFormat 20 = 882 /\
    frames_in captureFormat 200 = 8820.
Proof.
  intros Ha.
  destruct (OnAudioClientReady_first_call p w a Ha) as (hr & w' & rest & Hrun & Hlog).
  exists hr, w'. eexists. split; [exact Hrun|].
  split.
  - rewrite Hlog. rewrite nth_error_app2 by lia.
    rewrite Nat.sub_diag. reflexivity.
  - repeat split; reflexivity.
Qed.

Lemma OnAudioClientReady_requests_20ms_witness :
  m_audioClient (ses activated_world) = Some 2%nat /\
  exists hr w' c,
    OnAudioClientReady healthy activated_world = Ok hr w' /\
    nth_error (log w') (List.length (log activated_world)) = Some c /\
    c = AudioClient_Initialize AUDCLNT_SHAREMODE_SHARED
          (Z.lor AUDCLNT_STREAMFLAGS_LOOPBACK AUDCLNT_STREAMFLAGS_EVENTCALLBACK)
          200000 AUDCLNT_STREAMFLAGS_AUTOCONVERTPCM captureFormat /\
    requested_ms c = Some 20 /\
    nChannels captureFormat = 2 /\
    wBitsPerSample captureFormat = 16 /\
    nSamplesPerSec captureFormat = 44100 /\
    nBlockAlign captureFormat = 4 /\
    frames_in captureFormat 20 = 882 /\
    frames_in captureFormat 200 = 8820.
Proof.
  split; [reflexivity|].
  apply (OnAudioClientReady_requests_20ms healthy activated_world 2%nat).
  reflexivity.
Defined.


(** *** [ActivateCompleted] *)

(** [OnAudioClientReady] always returns, and it neither releases the raw
    activation result nor touches the handler. *)
Lemma OnAudioClientReady_total (p : Platform) (w : World) :
  exists hr w',
    OnAudioClientReady p w = Ok hr w' /\
    releases (log w') = releases (log w) /\
    hnd w' = hnd w.
Proof.
  unfold OnAudioClientReady. run_monad.
  destruct (m_audioClient (ses w)); simpl.
  - destruct (FAILED (fst (r_GetBufferSize p))); simpl.
    + eexists _, _. split; [reflexivity|]. simpl. split; [count_calls | reflexivity].
    + destruct (FAILED (fst (r_GetService p))); simpl.
      * eexists _, _. split; [reflexivity|]. simpl.
        split; [count_calls | reflexivity].
      * destruct (FAILED (r_Start p)); simpl;
          eexists _, _; (split; [reflexivity|]); simpl;
          (split; [count_calls | reflexivity]).
  - eexists _, _. split; [reflexivity|]. auto.
Qed.

(** How many times a run of the callback releases the raw activation
    result: not at all when the first test sends it to the early return,
    once on the two paths past that test. *)
Lemma ActivateCompleted_releases (p : Platform) (w : World) :
  exists hr w',
    ActivateCompleted p w = Ok hr w' /\
    releases (log w') =
      (releases (log w) +
       (let '(hr0, activateResult, punk) := r_GetActivateResult p in
        if FAILED hr0 || FAILED activateResult || is_null punk
        then 0 else 1))%nat.
Proof.
  unfold ActivateCompleted. run_monad.
  destruct (r_GetActivateResult p) as [[hr0 ar] punk].
  destruct (FAILED hr0 || FAILED ar || is_null punk); simpl.
  - eexists _, _. split; [reflexivity|]. simpl. count_calls.
  - destruct (FAILED (fst (r_QueryInterface p))); simpl.
    + eexists _, _. split; [reflexivity|]. simpl. count_calls.
    + destruct (m_parent (hnd w)); simpl.
      * match goal with
        | |- context [OnAudioClientReady p ?w0] =>
          destruct (OnAudioClientReady_total p w0) as (hr & w1 & Hrun & Hrel & _);
          rewrite Hrun
        end.
        simpl. eexists _, _. split; [reflexivity|]. simpl.
        rewrite releases_app, Hrel. simpl. count_calls.
      * eexists _, _. split; [reflexivity|]. simpl. count_calls.
Qed.

(** On the paths past the first test the callback owns one reference and
    releases it once. *)
Lemma ActivateCompleted_balanced_past_first_test (p : Platform) (w : World)
      (hr0 activateResult : HRESULT) (punk : nat) :
  r_GetActivateResult p = (hr0, activateResult, Some punk) ->
  FAILED hr0 = false ->
  FAILED activateResult = false ->
  exists hr w',
    ActivateCompleted p w = Ok hr w' /\
    releases (log w') = (releases (log w) + owned_refs p)%nat.
Proof.
  intros Hr H0 H1.
  destruct (ActivateCompleted_releases p w) as (hr & w' & Hrun & Hrel).
  exists hr, w'. split; [exact Hrun|].
  rewrite Hrel. unfold owned_refs. rewrite Hr. simpl. rewrite H0, H1. reflexivity.
Qed.

Lemma ActivateCompleted_balanced_past_first_test_witness :
  r_GetActivateResult healthy = (S_OK, S_OK, Some 1%nat) /\
  exists hr w',
    ActivateCompleted healthy fresh_world = Ok hr w' /\
    releases (log w') = (releases (log fresh_world) + owned_refs healthy)%nat.
Proof.
  split; [reflexivity|].
  exact (ActivateCompleted_balanced_past_first_test healthy fresh_world
           S_OK S_OK 1%nat eq_refl eq_refl eq_refl).
Defined.


(** C7.  The claim asks that the raw activation result be released on every
    path.  The early return taken when the call, or the activation, failed
    does not release it, unlike the two later exits.  When the platform
    reports a failed activation together with a non-null pointer, the
    callback returns [E_FAIL] having logged [GetActivateResult] alone: it
    owns one reference and released none. *)
Theorem ActivateCompleted_early_return_keeps_reference :
  let p := with_GetActivateResult (S_OK, E_ACCESSDENIED, Some 1%nat) healthy in
  ActivateCompleted p fresh_world
    = Ok E_FAIL (add_log GetActivateResult fresh_world) /\
  owned_refs p = 1%nat /\
  releases (log (add_log GetActivateResult fresh_world)) = 0%nat.
Proof. cbv zeta. split; [reflexivity | split; reflexivity]. Qed.

(** *** [StopCapture] *)

Lemma StopCapture_not_capturing (p : Platform) (w : World) :
  m_capturing (ses w) = false -> StopCapture p w = Ok S_OK w.
Proof.
  intros H. unfold StopCapture. run_monad. rewrite H. reflexivity.
Qed.

Lemma StopCapture_running (p : Platform) (w : World) (a : nat) :
  m_capturing (ses w) = true ->
  m_audioClient (ses w) = Some a ->
  StopCapture p w = Ok (r_Stop p) (stopped_world w).
Proof.
  intros Hc Ha. unfold StopCapture, stopped_world. run_monad.
  rewrite Hc, Ha. simpl.
  destruct (m_captureThread (ses w) =? NULL) eqn:Hn; simpl.
  - apply Z.eqb_eq in Hn.
    unfold with_captureEvent, with_captureThread, with_capturing. simpl.
    rewrite Hn, <- app_assoc. reflexivity.
  - unfold with_captureEvent, with_captureThread, with_capturing. simpl.
    repeat rewrite <- app_assoc. reflexivity.
Qed.

(** Whatever the first stop did, the session is not capturing afterwards,
    so a second stop returns [S_OK] and changes nothing. *)
Lemma StopCapture_then_StopCapture (p : Platform) (w w1 : World) (hr : HRESULT) :
  StopCapture p w = Ok hr w1 ->
  m_capturing (ses w1) = false /\ StopCapture p w1 = Ok S_OK w1.
Proof.
  intros H.
  assert (Hf : m_capturing (ses w1) = false).
  { destruct (m_capturing (ses w)) eqn:Hc.
    - destruct (m_audioClient (ses w)) eqn:Ha.
      + rewrite (StopCapture_running p w n Hc Ha) in H.
        inversion H. reflexivity.
      + unfold StopCapture in H. run_monad. rewrite Hc, Ha in H. simpl in H.
        destruct (m_captureThread (ses w) =? NULL); discriminate.
    - rewrite (StopCapture_not_capturing p w Hc) in H.
      inversion H; subst. exact Hc. }
  split; [exact Hf | apply StopCapture_not_capturing; exact Hf].
Qed.

Lemma StopCapture_then_StopCapture_witness :
  StopCapture healthy running_world = Ok S_OK (stopped_world running_world) /\
  m_capturing (ses (stopped_world running_world)) = false /\
  StopCapture healthy (stopped_world running_world)
    = Ok S_OK (stopped_world running_world).
Proof.
  split; [reflexivity|].
  exact (StopCapture_then_StopCapture healthy running_world
           (stopped_world running_world) S_OK eq_refl).
Defined.


(** C6.  On a session that is not capturing, [StopCapture] returns [S_OK],
    leaves the session, the stream and the log of platform calls exactly
    as they were, and so do two calls in a row. *)
Theorem StopCapture_idempotent (p : Platform) (w : World) :
  m_capturing (ses w) = false ->
  StopCapture p w = Ok S_OK w /\
  (StopCapture p ;;; StopCapture p) w = Ok S_OK w.
Proof.
  intros H. pose proof (StopCapture_not_capturing p w H) as H1.
  split; [exact H1|]. unfold bind. rewrite H1. exact H1.
Qed.

Lemma StopCapture_idempotent_witness :
  m_capturing (ses fresh_world) = false /\
  StopCapture healthy fresh_world = Ok S_OK fresh_world /\
  (StopCapture healthy ;;; StopCapture healthy) fresh_world = Ok S_OK fresh_world.
Proof.
  split; [reflexivity|].
  apply (StopCapture_idempotent healthy fresh_world). reflexivity.
Defined.


(** *** [CaptureThread] *)

(** One loop body: a sleep and one size query.  The session, the handler
    and the queued packets are as before; one scripted result is used. *)
Lemma CaptureThread_body_spec (w : World) (c : nat) :
  m_captureClient (ses w) = Some c ->
  exists w',
    CaptureThread_body w = Ok tt w' /\
    ses w' = ses w /\
    hnd w' = hnd w /\
    queue (strm w') = queue (strm w) /\
    script (strm w') = tl (script (strm w)) /\
    log w' = log w ++ polls 1.
Proof.
  intros Hc. unfold CaptureThread_body, poll. run_monad. rewrite Hc.
  unfold GetNextPacketSize.
  destruct (strm w) as [q sc] eqn:Hs. simpl.
  destruct sc as [|hr rest]; simpl.
  - eexists. split; [reflexivity|]. simpl.
    rewrite <- app_assoc. repeat split; reflexivity.
  - destruct (FAILED hr); simpl;
      (eexists; split; [reflexivity|]); simpl;
      rewrite <- app_assoc; repeat split; reflexivity.
Qed.

(** While the flag stays set the loop never leaves: [k] iterations are [k]
    sleeps and [k] size queries, whatever the queries answer. *)
Lemma CaptureThread_keeps_polling (k : nat) :
  forall (w : World) (c : nat),
    m_capturing (ses w) = true ->
    m_captureClient (ses w) = Some c ->
    exists w',
      CaptureThread k w = Ok false w' /\
      ses w' = ses w /\
      hnd w' = hnd w /\
      queue (strm w') = queue (strm w) /\
      script (strm w') = skipn k (script (strm w)) /\
      log w' = log w ++ polls k.
Proof.
  induction k as [|k IH]; intros w c Hf Hc.
  - exists w. simpl. rewrite app_nil_r. repeat split; reflexivity.
  - destruct (CaptureThread_body_spec w c Hc)
      as (w1 & Hb & Hs1 & Hh1 & Hq1 & Hsc1 & Hl1).
    assert (Hf1 : m_capturing (ses w1) = true) by (rewrite Hs1; exact Hf).
    assert (Hc1 : m_captureClient (ses w1) = Some c) by (rewrite Hs1; exact Hc).
    destruct (IH w1 c Hf1 Hc1) as (w2 & Hr & Hs2 & Hh2 & Hq2 & Hsc2 & Hl2).
    exists w2. split.
    + simpl. unfold bind at 1. unfold get_ses. rewrite Hf.
      unfold bind. rewrite Hb. exact Hr.
    + split; [congruence|]. split; [congruence|]. split; [congruence|].
      split.
      * rewrite Hsc2, Hsc1. destruct (script (strm w)); simpl;
          [ destruct k; reflexivity | reflexivity ].
      * rewrite Hl2, Hl1, <- app_assoc. reflexivity.
Qed.

Lemma CaptureThread_leaves_when_cleared (k : nat) (w : World) :
  m_capturing (ses w) = false -> CaptureThread (S k) w = Ok true w.
Proof.
  intros H. simpl. unfold bind, get_ses. rewrite H. reflexivity.
Qed.

(** C1.  The claim asks that every queued packet be fetched, handed to the
    sink and released.  The drain loop is commented out in the source: an
    iteration only sleeps and asks for the next packet's size.  On a
    stream with three queued packets, any number [k] of iterations leaves
    the three packets queued and logs nothing but [k] sleeps and [k] size
    queries, so no buffer reaches a sink. *)
Theorem CaptureThread_never_fetches_a_packet (k : nat) :
  exists w',
    CaptureThread k running_world = Ok false w' /\
    queue (strm w') = queue three_packets /\
    List.length (queue (strm w')) = 3%nat /\
    log w' = polls k.
Proof.
  destruct (CaptureThread_keeps_polling k running_world 3%nat eq_refl eq_refl)
    as (w' & Hr & _ & _ & Hq & _ & Hl).
  exists w'. split; [exact Hr|]. split; [exact Hq|].
  split; [rewrite Hq; reflexivity | exact Hl].
Qed.

(** C5, as stated, fails: on a stream whose first three size queries fail,
    the loop is still running after those three iterations and after any
    number of further ones, with the session as it was. *)
Lemma three_failures_do_not_end_the_thread :
  script (strm failing_world) = [E_FAIL; E_FAIL; E_FAIL] /\
  forall k : nat,
    exists w',
      CaptureThread (3 + k) failing_world = Ok false w' /\
      ses w' = running_session /\
      m_capturing (ses w') = true /\
      log w' = polls (3 + k).
Proof.
  split; [reflexivity|]. intros k.
  destruct (CaptureThread_keeps_polling (3 + k) failing_world 3%nat eq_refl eq_refl)
    as (w' & Hr & Hs & _ & _ & _ & Hl).
  exists w'. split; [exact Hr|]. split; [exact Hs|].
  split; [rewrite Hs; reflexivity | exact Hl].
Qed.

(** C5 (amended).  A failed size query is not fatal, and neither is any
    run of them: while [m_capturing] is set, [k] iterations use up [k]
    scripted results, failures or not, leave the session unchanged and do
    not end the loop.  The loop ends only at a test that finds the flag
    cleared. *)
Theorem CaptureThread_failures_never_fatal (k : nat) (w : World) (c : nat) :
  m_captureClient (ses w) = Some c ->
  if m_capturing (ses w) then
    exists w',
      CaptureThread k w = Ok false w' /\
      ses w' = ses w /\
      script (strm w') = skipn k (script (strm w)) /\
      log w' = log w ++ polls k
  else CaptureThread (S k) w = Ok true w.
Proof.
  intros Hc. destruct (m_capturing (ses w)) eqn:Hf.
  - destruct (CaptureThread_keeps_polling k w c Hf Hc)
      as (w' & Hr & Hs & _ & _ & Hsc & Hl).
    exists w'. auto.
  - apply CaptureThread_leaves_when_cleared. exact Hf.
Qed.

Lemma CaptureThread_failures_never_fatal_witness :
  m_captureClient (ses failing_world) = Some 3%nat /\
  exists w',
    CaptureThread 4 failing_world = Ok false w' /\
    ses w' = ses failing_world /\
    script (strm w') = skipn 4 (script (strm failing_world)) /\
    log w' = log failing_world ++ polls 4.
Proof.
  split; [reflexivity|].
  apply (CaptureThread_failures_never_fatal 4 failing_world 3%nat). reflexivity.
Defined.


(** *** The caller and the capture thread, interleaved *)

(** Taken alone, the caller's steps are [StopCapture]. *)
Lemma stop_steps_are_StopCapture (p : Platform) (w w' : World) (hr : HRESULT)
      (t : thread_pc) :
  StopCapture p w = Ok hr w' ->
  run p [Caller; Caller; Caller; Caller; Caller] (mkSys w Stop_entry t)
    = mkSys w' (Stop_returned hr) t.
Proof.
  intros H. destruct (m_capturing (ses w)) eqn:Hc.
  - destruct (m_audioClient (ses w)) eqn:Ha.
    + rewrite (StopCapture_running p w n Hc Ha) in H.
      inversion H; subst. unfold run, stopped_world. simpl.
      rewrite Hc. simpl.
      destruct (m_captureThread (ses w) =? NULL) eqn:Hn; simpl;
        rewrite Ha; simpl; unfold upd_ses, add_log; simpl.
      * apply Z.eqb_eq in Hn.
        unfold with_captureEvent, with_captureThread, with_capturing. simpl.
        rewrite Hn, <- app_assoc. reflexivity.
      * unfold with_captureEvent, with_captureThread, with_capturing. simpl.
        repeat rewrite <- app_assoc. reflexivity.
    + unfold StopCapture in H. run_monad. rewrite Hc, Ha in H. simpl in H.
      destruct (m_captureThread (ses w) =? NULL); discriminate.
  - rewrite (StopCapture_not_capturing p w Hc) in H.
    inversion H; subst. unfold run. simpl. rewrite Hc. reflexivity.
Qed.

Lemma stop_inv_step (p : Platform) (t : tid) (s : Sys) :
  stop_inv s -> stop_inv (sys_step p t s).
Proof.
  unfold stop_inv. intros [Hcc Hpc]. destruct s as [w cpc tpc]. simpl in *.
  destruct t; simpl.
  - destruct cpc; simpl in *.
    + destruct (m_capturing (ses w)) eqn:Hf; simpl; split; auto.
    + split; auto.
    + destruct (m_captureThread (ses w) =? NULL); simpl; split; auto.
    + destruct (m_audioClient (ses w)); simpl; split; auto.
    + split; auto.
    + split; auto.
  - destruct tpc; simpl.
    + case (m_capturing (ses w)); simpl; split; auto.
    + destruct (m_captureClient (ses w)) as [c|] eqn:Hc; [|congruence].
      destruct (CaptureThread_body_spec w c Hc) as (w1 & Hb & Hs & _).
      rewrite Hb. simpl. rewrite Hs. split; [congruence | exact Hpc].
    + split; auto.
Qed.

Lemma stop_inv_run (p : Platform) (sched : list tid) :
  forall s : Sys, stop_inv s -> stop_inv (run p sched s).
Proof.
  induction sched as [|t sched IH]; intros s Hs; simpl.
  - exact Hs.
  - apply IH. apply stop_inv_step. exact Hs.
Qed.

(** Once the flag is clear, two steps of the capture thread are enough for
    it to leave its loop. *)
Lemma thread_exits_once_cleared (p : Platform) (s : Sys) :
  m_captureClient (ses (world s)) <> None ->
  m_capturing (ses (world s)) = false ->
  thread (run p [Capture; Capture] s) = Thread_exited.
Proof.
  intros Hcc Hf. destruct s as [w cpc tpc]. simpl in *.
  destruct tpc; simpl.
  - rewrite Hf. reflexivity.
  - destruct (m_captureClient (ses w)) as [c|] eqn:Hc; [|congruence].
    destruct (CaptureThread_body_spec w c Hc) as (w1 & Hb & Hs & _).
    rewrite Hb. simpl. rewrite Hs, Hf. reflexivity.
  - reflexivity.
Qed.

(** C2, as stated, fails: with the capture thread inside its loop body,
    five steps of the caller take [StopCapture] from entry to return.  The
    thread has not moved; its next step queries the stream that has just
    been stopped. *)
Lemma StopCapture_returns_while_thread_runs :
  let s := run healthy [Capture; Caller; Caller; Caller; Caller; Caller]
               (mkSys running_world Stop_entry Thread_test) in
  caller s = Stop_returned S_OK /\
  thread s = Thread_body /\
  log (world s) = [CloseHandle 0x1A4; AudioClient_Stop; CloseHandle 0x14] /\
  log (world (sys_step healthy Capture s))
    = [CloseHandle 0x1A4; AudioClient_Stop; CloseHandle 0x14;
       Sleep 10; CaptureClient_GetNextPacketSize].
Proof. cbv zeta. repeat split; reflexivity. Qed.

(** C2 (amended).  On a running session [StopCapture] clears
    [m_capturing], closes the thread handle when there is one, stops the
    stream, closes the capture event and returns the stream's result; it
    makes no other call, none that waits for the thread.  In every
    interleaving, when [StopCapture] has returned the flag is clear, and
    the capture thread leaves its loop within two further steps of its
    own. *)
Theorem StopCapture_signals_without_joining (p : Platform) (w : World) (a c : nat) :
  m_capturing (ses w) = true ->
  m_audioClient (ses w) = Some a ->
  m_captureClient (ses w) = Some c ->
  StopCapture p w = Ok (r_Stop p) (stopped_world w) /\
  forall (sched : list tid) (t : thread_pc) (hr : HRESULT),
    caller (run p sched (mkSys w Stop_entry t)) = Stop_returned hr ->
    m_capturing (ses (world (run p sched (mkSys w Stop_entry t)))) = false /\
    thread (run p [Capture; Capture] (run p sched (mkSys w Stop_entry t)))
      = Thread_exited.
Proof.
  intros Hf Ha Hc. split; [exact (StopCapture_running p w a Hf Ha)|].
  intros sched t hr Hret.
  assert (Hinv : stop_inv (run p sched (mkSys w Stop_entry t))).
  { apply stop_inv_run. split; simpl; [congruence | exact I]. }
  destruct Hinv as [Hcc Hpc]. rewrite Hret in Hpc.
  split; [exact Hpc | apply thread_exits_once_cleared; assumption].
Qed.

Lemma StopCapture_signals_without_joining_witness :
  m_capturing (ses running_world) = true /\
  StopCapture healthy running_world = Ok S_OK (stopped_world running_world) /\
  let s := run healthy [Capture; Caller; Caller; Caller; Caller; Caller]
               (mkSys running_world Stop_entry Thread_test) in
  caller s = Stop_returned S_OK /\
  m_capturing (ses (world s)) = false /\
  thread (run healthy [Capture; Capture] s) = Thread_exited.
Proof.
  split; [reflexivity|].
  destruct (StopCapture_signals_without_joining healthy running_world 2%nat 3%nat
              eq_refl eq_refl eq_refl) as [H1 H2].
  split; [exact H1|]. cbv zeta. split; [reflexivity|].
  exact (H2 [Capture; Caller; Caller; Caller; Caller; Caller] Thread_test S_OK
            eq_refl).
Defined.


End LoopbackFacts.

(** ** Facts about ApplicationLoopback.cpp *)

Module ApplicationFacts.

Import ApplicationLoopback.

Lemma wcscmp_refl (a : wstring) : wcscmp a a = 0.
Proof.
  induction a as [|x a IH]; simpl; [reflexivity|].
  rewrite Z.ltb_irrefl. exact IH.
Qed.

(** [wcscmp] answers zero on equal strings only. *)
Lemma wcscmp_eq (a : wstring) : forall b, wcscmp a b = 0 <-> a = b.
Proof.
  induction a as [|x a IH]; intros [|y b]; simpl.
  - tauto.
  - split; discriminate.
  - split; discriminate.
  - destruct (x <? y) eqn:Hxy; [split; [discriminate|]|].
    + intros E. inversion E; subst. rewrite Z.ltb_irrefl in Hxy. discriminate.
    + destruct (y <? x) eqn:Hyx; [split; [discriminate|]|].
      * intros E. inversion E; subst. rewrite Z.ltb_irrefl in Hyx. discriminate.
      * apply Z.ltb_ge in Hxy, Hyx. assert (x = y) by lia. subst y.
        rewrite IH. split; [intros ->; reflexivity | intros E; inversion E; reflexivity].
Qed.

Section Main.

Variable wcstoul : wstring -> Z.
Variable setmode : Z.
Variable StartCaptureAsync : DWORD -> bool -> HRESULT.

(** The local [include] is false exactly when there is an [argv[2]] and
    it is the string "exclude". *)
Lemma include_flag_false (argv : list wstring) :
  include_flag argv = false <-> nth_error argv 2 = Some (wstr "exclude").
Proof.
  unfold include_flag.
  destruct (3 <=? Z.of_nat (List.length argv)) eqn:H3.
  - apply Z.leb_le in H3.
    rewrite (nth_error_nth' argv []) by lia.
    destruct (wcscmp (nth 2 argv []) (wstr "exclude") =? 0) eqn:E.
    + apply Z.eqb_eq, wcscmp_eq in E. rewrite E. split; reflexivity.
    + apply Z.eqb_neq in E. split; [discriminate|].
      intros H. inversion H as [H']. exfalso. apply E.
      rewrite H'. apply wcscmp_refl.
  - apply Z.leb_gt in H3.
    assert (Hn : nth_error argv 2 = None) by (apply nth_error_None; lia).
    rewrite Hn. split; discriminate.
Qed.

(** C9.  In a run with a process id argument ([argc >= 2]), the value
    given to [StartCaptureAsync] as [includeDescendants] is the local
    [include], and it is false if and only if the second argument is
    exactly "exclude"; with any other second argument, or none, it is
    true. *)
Theorem wmain_include_iff_not_exclude (argv : list wstring) :
  (2 <= List.length argv)%nat ->
  (include_flag argv = false <-> nth_error argv 2 = Some (wstr "exclude")) /\
  (include_flag argv = true <-> nth_error argv 2 <> Some (wstr "exclude")) /\
  match request (wmain wcstoul setmode StartCaptureAsync argv) with
  | Some (_, includeDescendants) => includeDescendants = include_flag argv
  | None =>
    to_dword (wcstoul (nth 1 argv [])) = 0 \/ setmode = -1
  end.
Proof.
  intros Hargc. pose proof (include_flag_false argv) as Hiff.
  split; [exact Hiff|]. split.
  - rewrite <- Hiff. destruct (include_flag argv); split; congruence.
  - unfold wmain.
    replace (Z.of_nat (List.length argv) <? 2) with false
      by (symmetry; apply Z.ltb_ge; lia).
    destruct (to_dword (wcstoul (nth 1 argv [])) =? 0) eqn:Hp; simpl.
    + left. apply Z.eqb_eq. exact Hp.
    + destruct (setmode =? -1) eqn:Hm; simpl.
      * right. apply Z.eqb_eq. exact Hm.
      * destruct (FAILED _); reflexivity.
Qed.

End Main.

Lemma wmain_include_iff_not_exclude_witness :
  let argv := [wstr "ApplicationLoopback.exe"; wstr "1234"; wstr "exclude"] in
  (2 <= List.length argv)%nat /\
  (include_flag argv = false <-> nth_error argv 2 = Some (wstr "exclude")) /\
  (include_flag argv = true <-> nth_error argv 2 <> Some (wstr "exclude")) /\
  request (wmain (fun _ => 1234) 0 (fun _ _ => S_OK) argv) = Some (1234, false).
Proof.
  cbv zeta. split; [simpl; lia|].
  pose proof (wmain_include_iff_not_exclude (fun _ => 1234) 0 (fun _ _ => S_OK)
                [wstr "ApplicationLoopback.exe"; wstr "1234"; wstr "exclude"]) as H.
  destruct H as (H1 & H2 & _); [simpl; lia|].
  split; [exact H1|]. split; [exact H2 | reflexivity].
Defined.

End ApplicationFacts.

(** ** Facts about ProcessList.cpp *)

Module ProcessListFacts.

Import ProcessList Listing.
Local Open Scope string_scope.

Lemma c_str_app_NUL (s : string) :
  c_str (s ++ String NUL EmptyString) = c_str s.
Proof.
  induction s as [|c s IH]; simpl.
  - reflexivity.
  - destruct (Ascii.eqb c NUL); [reflexivity | rewrite IH; reflexivity].
Qed.

Lemma length_c_str (s : string) : (String.length (c_str s) <= String.length s)%nat.
Proof.
  induction s as [|c s IH]; simpl; [lia|].
  destruct (Ascii.eqb c NUL); simpl; lia.
Qed.

Lemma length_take (n : nat) : forall s, (String.length (take n s) <= n)%nat.
Proof.
  induction n as [|n IH]; intros [|c s]; simpl; try lia.
  specialize (IH s). lia.
Qed.

Lemma take_all (n : nat) :
  forall s, (String.length s <= n)%nat -> take n s = s.
Proof.
  induction n as [|n IH]; intros [|c s] H; simpl in *; try reflexivity; try lia.
  rewrite IH by lia. reflexivity.
Qed.

Lemma is_prefix_c_str (s : string) : is_prefix (c_str s) s = true.
Proof.
  induction s as [|c s IH]; simpl; [reflexivity|].
  destruct (Ascii.eqb c NUL); simpl; [reflexivity|].
  rewrite Ascii.eqb_refl. exact IH.
Qed.

Lemma is_prefix_take (n : nat) : forall s, is_prefix (take n s) s = true.
Proof.
  induction n as [|n IH]; intros [|c s]; simpl; try reflexivity.
  rewrite Ascii.eqb_refl. apply IH.
Qed.

Lemma is_prefix_trans (a : string) :
  forall b c, is_prefix a b = true -> is_prefix b c = true -> is_prefix a c = true.
Proof.
  induction a as [|x a IH]; intros [|y b] [|z c]; simpl; try congruence.
  intros H1 H2. apply andb_true_iff in H1, H2.
  destruct H1 as [E1 P1], H2 as [E2 P2].
  apply Ascii.eqb_eq in E1, E2. subst.
  rewrite Ascii.eqb_refl. simpl. eapply IH; eassumption.
Qed.

Lemma title_read_buffer (w : Window) : c_str (GetWindowTextA w 256) = title_read w.
Proof. unfold GetWindowTextA, title_read. simpl. apply c_str_app_NUL. Qed.

Lemma title_read_length (w : Window) : (String.length (title_read w) <= 255)%nat.
Proof.
  unfold title_read.
  pose proof (length_c_str (take 255 (text w))).
  pose proof (length_take 255 (text w)). lia.
Qed.

Lemma is_empty_length (s : string) : is_empty s = (String.length s =? 0)%nat.
Proof. destruct s; reflexivity. Qed.

(** The callback appends the record of a listed window and nothing for any
    other; it always asks for the enumeration to go on. *)
Lemma EnumWindowsProc_spec (w : Window) (windows : list WindowInfo) :
  EnumWindowsProc w windows
    = (true, (windows ++ if listed w then [info_of w] else [])%list).
Proof.
  unfold EnumWindowsProc, listed, strlen.
  destruct (visible w); simpl andb; [|rewrite app_nil_r; reflexivity].
  rewrite !title_read_buffer. rewrite is_empty_length.
  destruct (String.length (title_read w)) eqn:L; simpl.
  - rewrite app_nil_r. reflexivity.
  - unfold info_of. destruct (module w) as [[name|]|]; reflexivity.
Qed.

Lemma EnumWindows_spec (desktop : list Window) :
  forall windows, EnumWindows desktop windows = (windows ++ records desktop)%list.
Proof.
  induction desktop as [|w rest IH]; intros windows; simpl.
  - rewrite app_nil_r. reflexivity.
  - rewrite EnumWindowsProc_spec. rewrite IH, <- app_assoc. reflexivity.
Qed.

Lemma records_map_filter (desktop : list Window) :
  records desktop = map info_of (filter listed desktop).
Proof.
  induction desktop as [|w rest IH]; simpl; [reflexivity|].
  destruct (listed w); simpl; rewrite IH; reflexivity.
Qed.

Lemma listed_title_nonempty (w : Window) :
  listed w = true -> is_empty (title_read w) = false.
Proof.
  unfold listed. intros H. apply andb_true_iff in H. destruct H as [_ H].
  apply negb_true_iff in H. exact H.
Qed.

(** The second pass of [main] over the vector removes nothing. *)
Lemma appsWithTitles_spec (desktop : list Window) :
  appsWithTitles desktop = map info_of (filter listed desktop).
Proof.
  unfold appsWithTitles. rewrite EnumWindows_spec. simpl.
  rewrite records_map_filter.
  induction desktop as [|w rest IH]; simpl; [reflexivity|].
  destruct (listed w) eqn:L; simpl; [|exact IH].
  rewrite (listed_title_nonempty w L). simpl. rewrite IH. reflexivity.
Qed.

Lemma print_lines (ws : list Window) :
  PrintApplicationsWithWindows (map info_of ws) = lines ws.
Proof.
  induction ws as [|w rest IH]; simpl; [reflexivity|].
  rewrite IH. reflexivity.
Qed.

Lemma c_str_no_NUL (s : string) : has_NUL s = false -> c_str s = s.
Proof.
  induction s as [|c s IH]; simpl; [reflexivity|].
  intros H. apply orb_false_iff in H. destruct H as [Hc Hs].
  rewrite Hc, (IH Hs). reflexivity.
Qed.

Lemma has_NUL_take (n : nat) :
  forall s, has_NUL s = false -> has_NUL (take n s) = false.
Proof.
  induction n as [|n IH]; intros [|c s]; simpl; try reflexivity.
  intros H. apply orb_false_iff in H. destruct H as [Hc Hs].
  rewrite Hc, (IH s Hs). reflexivity.
Qed.

Lemma length_take_min (n : nat) :
  forall s, String.length (take n s) = Nat.min n (String.length s).
Proof.
  induction n as [|n IH]; intros [|c s]; simpl; try reflexivity.
  rewrite IH. reflexivity.
Qed.

(** C8, as stated, fails: a desktop whose only visible top-level window has
    an empty title yields no record and no output. *)
Lemma untitled_window_gets_no_record :
  let desktop := [mkWindow 0x30A true "" 4242 None] in
  List.length (filter visible desktop) = 1%nat /\
  appsWithTitles desktop = [] /\
  main desktop = "".
Proof. cbv zeta. repeat split; reflexivity. Qed.

(** C8 (amended).  The enumerator emits exactly one record for each visible
    top-level window whose title, as read into the 256-byte buffer, is not
    empty, and none for any other window.  The records come in enumeration
    order, neither sorted nor deduplicated, each printed as the decimal
    process id, [;], the decimal window handle (its low 32 bits), [;], the
    title and a line feed. *)
Theorem main_lists_visible_titled_windows (desktop : list Window) :
  appsWithTitles desktop = map info_of (filter listed desktop) /\
  List.length (appsWithTitles desktop) = List.length (filter listed desktop) /\
  main desktop = lines (filter listed desktop).
Proof.
  pose proof (appsWithTitles_spec desktop) as H.
  split; [exact H|]. split.
  - rewrite H. apply length_map.
  - unfold main. rewrite H. apply print_lines.
Qed.

Lemma titles_of_records (ws : list Window) :
  Forall (fun app => (1 <= String.length (windowTitle app) <= 255)%nat)
         (map info_of (filter listed ws)).
Proof.
  induction ws as [|w rest IH]; simpl; [constructor|].
  destruct (listed w) eqn:L; simpl; [|exact IH].
  constructor; [|exact IH]. simpl.
  pose proof (title_read_length w).
  pose proof (listed_title_nonempty w L) as E.
  rewrite is_empty_length in E. apply Nat.eqb_neq in E. lia.
Qed.

(** C10.  Every title in the output is between 1 and 255 bytes long.  The
    title stored for a window is a prefix of its text, at most 255 bytes
    of it: for a text without NUL bytes, exactly its first 255 bytes when
    it is longer.  A window whose title reads empty adds no record. *)
Theorem windowTitle_at_most_255_bytes
        (desktop : list Window) (w : Window) (windows : list WindowInfo) :
  Forall (fun app => (1 <= String.length (windowTitle app) <= 255)%nat)
         (appsWithTitles desktop) /\
  (String.length (title_read w) <= 255)%nat /\
  is_prefix (title_read w) (text w) = true /\
  (if has_NUL (text w) then True
   else title_read w = take 255 (text w) /\
        String.length (title_read w) = Nat.min 255 (String.length (text w))) /\
  (if is_empty (title_read w)
   then EnumWindowsProc w windows = (true, windows)
   else EnumWindowsProc w windows
        = (true, (windows ++ if visible w then [info_of w] else [])%list)).
Proof.
  split; [rewrite appsWithTitles_spec; apply titles_of_records|].
  split; [apply title_read_length|].
  split.
  { unfold title_read. eapply is_prefix_trans;
      [apply is_prefix_c_str | apply is_prefix_take]. }
  split.
  { destruct (has_NUL (text w)) eqn:Hn; [exact I|].
    assert (E : title_read w = take 255 (text w)).
    { unfold title_read. apply c_str_no_NUL, has_NUL_take. exact Hn. }
    split; [exact E | rewrite E; apply length_take_min]. }
  rewrite EnumWindowsProc_spec. unfold listed.
  destruct (is_empty (title_read w)); simpl.
  - rewrite andb_false_r, app_nil_r. reflexivity.
  - rewrite andb_true_r. reflexivity.
Qed.


End ProcessListFacts.

(** ** Further facts about LoopbackTest.cpp: activation, start and stop
    composed, and the object's lifetime *)

Module LifecycleFacts.

Import LoopbackTest Scenario Lifecycle.

Ltac open_monad :=
  unfold ActivateCompleted, OnAudioClientReady, StopCapture,
         bind, ret, call, get_ses, set_ses, get_hnd, set_hnd, deref;
  simpl.

Ltac split_tests :=
  repeat match goal with
         | |- context [FAILED ?x] =>
           let E := fresh "E" in destruct (FAILED x) eqn:E; simpl
         end.

Lemma count_app (f : Call -> bool) (l1 l2 : list Call) :
  count f (l1 ++ l2) = (count f l1 + count f l2)%nat.
Proof. unfold count. rewrite filter_app, length_app. reflexivity. Qed.

Ltac tally :=
  rewrite ?count_app, ?LoopbackFacts.threads_spawned_app;
  unfold count, threads_spawned; simpl;
  repeat split; try reflexivity; try lia.

(** [OnAudioClientReady] does not touch [m_audioClient], and it sets the
    flag only on a session that has one. *)
Lemma OnAudioClientReady_keeps_audioClient (p : Platform) (w w' : World) (hr : HRESULT) :
  OnAudioClientReady p w = Ok hr w' ->
  m_audioClient (ses w') = m_audioClient (ses w) /\
  (m_capturing (ses w') = m_capturing (ses w) \/ m_audioClient (ses w) <> None).
Proof.
  open_monad. destruct (m_audioClient (ses w)) eqn:Ha; simpl.
  - split_tests; intros H; inversion H; subst; simpl;
      (split; [exact Ha | right; congruence]).
  - intros H; inversion H; subst. split; [exact Ha | left; reflexivity].
Qed.

(** The value the callback returns is [E_FAIL] when its first test fails,
    the code of a failed [QueryInterface], and [S_OK] otherwise: the result
    of [OnAudioClientReady] is dropped, so a failed stream initialisation
    is never reported.  Unless the activation succeeded and a parent is
    set, the session is left exactly as it was. *)
Theorem ActivateCompleted_result (p : Platform) (w : World) :
  exists w',
    ActivateCompleted p w
      = Ok (if activation_ok p
            then if FAILED (fst (r_QueryInterface p))
                 then fst (r_QueryInterface p) else S_OK
            else E_FAIL) w' /\
    (if activation_ok p && negb (FAILED (fst (r_QueryInterface p)))
        && m_parent (hnd w)
     then m_audioClient (ses w') = snd (r_QueryInterface p)
     else ses w' = ses w) /\
    strm w' = strm w.
Proof.
  unfold ActivateCompleted, activation_ok.
  unfold bind at 1. unfold call at 1.
  destruct (r_GetActivateResult p) as [[hr0 ar] punk].
  destruct (FAILED hr0 || FAILED ar || is_null punk); simpl.
  - eexists. split; [reflexivity|]. split; reflexivity.
  - unfold bind, call, set_hnd, get_hnd, ret; simpl.
    destruct (FAILED (fst (r_QueryInterface p))); simpl.
    + eexists. split; [reflexivity|]. split; reflexivity.
    + destruct (m_parent (hnd w)); simpl.
      * match goal with
        | |- context [OnAudioClientReady p ?w0] =>
          destruct (LoopbackFacts.OnAudioClientReady_total p w0) as (hr & w1 & Hrun & _ & _);
          pose proof (OnAudioClientReady_keeps_audioClient p w0 w1 hr Hrun) as [Ha _];
          pose proof Hrun as Hrun'; rewrite Hrun
        end.
        simpl. eexists. split; [reflexivity|]. simpl. split; [exact Ha|].
        clear - Hrun'. revert Hrun'. open_monad.
        destruct (snd (r_QueryInterface p)); simpl.
        -- split_tests; intros H; inversion H; reflexivity.
        -- intros H; inversion H; reflexivity.
      * eexists. split; [reflexivity|]. split; reflexivity.
Qed.

(** When the activation and every tested step succeed, the callback leaves
    a running session: the stream-control object, the buffer size, the
    packet reader and the thread handle are stored, the flag is set, and
    the platform saw exactly these calls in this order, the release of the
    raw activation result coming last. *)
Theorem ActivateCompleted_starts_capture
        (p : Platform) (w : World) (hr0 ar hq : HRESULT) (k a : nat) :
  r_GetActivateResult p = (hr0, ar, Some k) ->
  FAILED hr0 = false ->
  FAILED ar = false ->
  r_QueryInterface p = (hq, Some a) ->
  FAILED hq = false ->
  chain_ok p = true ->
  m_parent (hnd w) = true ->
  ActivateCompleted p w
    = Ok S_OK
        (mkWorld
           (mkSession (snd (r_GetService p)) (m_captureReadyEvent (ses w))
                      (m_captureEvent (ses w)) (m_stopEvent (ses w))
                      (snd (r_GetBufferSize p)) (r_CreateThread p) true (Some a))
           (mkHandler true (Some a))
           (strm w)
           (log w ++
            [GetActivateResult; QueryInterface;
             AudioClient_Initialize AUDCLNT_SHAREMODE_SHARED
               (Z.lor AUDCLNT_STREAMFLAGS_LOOPBACK AUDCLNT_STREAMFLAGS_EVENTCALLBACK)
               200000 AUDCLNT_STREAMFLAGS_AUTOCONVERTPCM captureFormat;
             AudioClient_GetBufferSize; AudioClient_GetService;
             AudioClient_Start; CreateThread; IUnknown_Release])).
Proof.
  intros Hr H0 H1 Hq H2 Hc Hp. unfold chain_ok in Hc.
  apply andb_true_iff in Hc. destruct Hc as [Hc H5].
  apply andb_true_iff in Hc. destruct Hc as [H3 H4].
  apply negb_true_iff in H3, H4, H5.
  open_monad. rewrite Hr, H0, H1. simpl.
  rewrite Hq. simpl. rewrite H2. simpl. rewrite Hp. simpl.
  rewrite H3. simpl. rewrite H4. simpl. rewrite H5. simpl.
  repeat rewrite <- app_assoc. reflexivity.
Qed.

Lemma ActivateCompleted_starts_capture_witness :
  ActivateCompleted healthy fresh_world
    = Ok S_OK
        (mkWorld running_session (mkHandler true (Some 2%nat)) three_packets
           [GetActivateResult; QueryInterface;
            AudioClient_Initialize AUDCLNT_SHAREMODE_SHARED
              (Z.lor AUDCLNT_STREAMFLAGS_LOOPBACK AUDCLNT_STREAMFLAGS_EVENTCALLBACK)
              200000 AUDCLNT_STREAMFLAGS_AUTOCONVERTPCM captureFormat;
            AudioClient_GetBufferSize; AudioClient_GetService;
            AudioClient_Start; CreateThread; IUnknown_Release]).
Proof.
  exact (ActivateCompleted_starts_capture healthy fresh_world S_OK S_OK S_OK
           1%nat 2%nat eq_refl eq_refl eq_refl eq_refl eq_refl eq_refl eq_refl).
Defined.

(** The handle [CreateThread] returns is stored untested.  When thread
    creation fails (a null handle), [OnAudioClientReady] still returns the
    successful result of [Start] with the flag set; a later [StopCapture]
    then closes no thread handle: it stops the stream and closes the
    capture event. *)
Theorem OnAudioClientReady_ignores_CreateThread_failure
        (p p' : Platform) (w : World) (a : nat) :
  m_audioClient (ses w) = Some a ->
  chain_ok p = true ->
  r_CreateThread p = NULL ->
  exists w1 w2,
    OnAudioClientReady p w = Ok (r_Start p) w1 /\
    FAILED (r_Start p) = false /\
    m_capturing (ses w1) = true /\
    m_captureThread (ses w1) = NULL /\
    StopCapture p' w1 = Ok (r_Stop p') w2 /\
    log w2 = log w1 ++ [AudioClient_Stop; CloseHandle (m_captureEvent (ses w))].
Proof.
  intros Ha Hc Ht. unfold chain_ok in Hc.
  apply andb_true_iff in Hc. destruct Hc as [Hc H5].
  apply andb_true_iff in Hc. destruct Hc as [H3 H4].
  apply negb_true_iff in H3, H4, H5.
  eexists _, _. split.
  { open_monad. rewrite Ha. simpl. rewrite H3. simpl. rewrite H4. simpl.
    rewrite H5. simpl. reflexivity. }
  split; [exact H5|]. split; [reflexivity|]. split; [exact Ht|].
  split.
  { open_monad. rewrite Ht. simpl. rewrite Ha. simpl. reflexivity. }
  simpl. repeat rewrite <- app_assoc. reflexivity.
Qed.

Lemma OnAudioClientReady_ignores_CreateThread_failure_witness :
  r_CreateThread (with_CreateThread NULL healthy) = NULL /\
  exists w1 w2,
    OnAudioClientReady (with_CreateThread NULL healthy) activated_world
      = Ok S_OK w1 /\
    FAILED S_OK = false /\
    m_capturing (ses w1) = true /\
    m_captureThread (ses w1) = NULL /\
    StopCapture healthy w1 = Ok S_OK w2 /\
    log w2 = log w1 ++ [AudioClient_Stop; CloseHandle 0x14].
Proof.
  split; [reflexivity|].
  exact (OnAudioClientReady_ignores_CreateThread_failure
           (with_CreateThread NULL healthy) healthy activated_world 2%nat
           eq_refl eq_refl eq_refl).
Defined.




(** [StopCapture] dereferences [m_audioClient] without a test, which is
    safe after the callback: from a session that is not capturing,
    [ActivateCompleted] followed by [StopCapture] always returns, on every
    platform, and ends with the flag clear. *)
Theorem StopCapture_after_activation_never_faults (p p' : Platform) (w : World) :
  m_capturing (ses w) = false ->
  exists hr w1 hr2 w2,
    ActivateCompleted p w = Ok hr w1 /\
    StopCapture p' w1 = Ok hr2 w2 /\
    m_capturing (ses w2) = false.
Proof.
  intros Hf. open_monad.
  destruct (r_GetActivateResult p) as [[hr0 ar] punk].
  destruct (FAILED hr0 || FAILED ar || is_null punk); simpl.
  { eexists _, _, _, _. split; [reflexivity|]. simpl. rewrite Hf. simpl.
    split; [reflexivity | exact Hf]. }
  destruct (FAILED (fst (r_QueryInterface p))); simpl.
  { eexists _, _, _, _. split; [reflexivity|]. simpl. rewrite Hf. simpl.
    split; [reflexivity | exact Hf]. }
  destruct (m_parent (hnd w)); simpl.
  2:{ eexists _, _, _, _. split; [reflexivity|]. simpl. rewrite Hf. simpl.
      split; [reflexivity | exact Hf]. }
  destruct (snd (r_QueryInterface p)) as [a|]; simpl.
  2:{ eexists _, _, _, _. split; [reflexivity|]. simpl. rewrite Hf. simpl.
      split; [reflexivity | exact Hf]. }
  destruct (FAILED (fst (r_GetBufferSize p))); simpl.
  { eexists _, _, _, _. split; [reflexivity|]. simpl. rewrite Hf. simpl.
    split; [reflexivity | exact Hf]. }
  destruct (FAILED (fst (r_GetService p))); simpl.
  { eexists _, _, _, _. split; [reflexivity|]. simpl. rewrite Hf. simpl.
    split; [reflexivity | exact Hf]. }
  destruct (FAILED (r_Start p)); simpl.
  { eexists _, _, _, _. split; [reflexivity|]. simpl. rewrite Hf. simpl.
    split; [reflexivity | exact Hf]. }
  destruct (r_CreateThread p =? NULL) eqn:Ht;
    (eexists _, _, _, _; split; [reflexivity|]; simpl; rewrite Ht; simpl;
     split; reflexivity).
Qed.

Lemma StopCapture_after_activation_never_faults_witness :
  m_capturing (ses fresh_world) = false /\
  exists hr w1 hr2 w2,
    ActivateCompleted healthy fresh_world = Ok hr w1 /\
    StopCapture healthy w1 = Ok hr2 w2 /\
    m_capturing (ses w2) = false.
Proof.
  split; [reflexivity|].
  exact (StopCapture_after_activation_never_faults healthy healthy fresh_world
           eq_refl).
Defined.


(** *** Construction to destruction *)

Lemma session_calls_app (t1 t2 : list SysCall) :
  session_calls (t1 ++ t2) = session_calls t1 ++ session_calls t2.
Proof.
  induction t1 as [|e t1 IH]; simpl; [reflexivity|].
  destruct e; simpl; rewrite IH; reflexivity.
Qed.

Lemma session_calls_map (l : list Call) : session_calls (map Session l) = l.
Proof. induction l as [|c l IH]; simpl; [reflexivity | rewrite IH; reflexivity]. Qed.

(** What the callback followed by a stop leaves behind, seen through the
    handles: either nothing was closed, or (the session had been running)
    the thread handle, when there is one, and the capture event were closed
    and the latter member was nulled. *)
Lemma activation_then_stop_closes (p p' : Platform) (w : World) :
  m_capturing (ses w) = false ->
  exists (running : bool) hr w2,
    (ActivateCompleted p ;;; StopCapture p') w = Ok hr w2 /\
    m_captureReadyEvent (ses w2) = m_captureReadyEvent (ses w) /\
    m_stopEvent (ses w2) = m_stopEvent (ses w) /\
    m_captureEvent (ses w2)
      = (if running then NULL else m_captureEvent (ses w)) /\
    forall h,
      count (is_close h) (log w2)
      = (count (is_close h) (log w)
         + if running
           then (if negb (r_CreateThread p =? NULL)%Z && (r_CreateThread p =? h)%Z
                 then 1 else 0)
                + (if (m_captureEvent (ses w) =? h)%Z then 1 else 0)
           else 0)%nat.
Proof.
  intros Hf. open_monad.
  destruct (r_GetActivateResult p) as [[hr0 ar] punk].
  destruct (FAILED hr0 || FAILED ar || is_null punk); simpl.
  { rewrite Hf. simpl. exists false. eexists _, _. split; [reflexivity|].
    simpl. repeat split; try reflexivity. intros h. tally. }
  destruct (FAILED (fst (r_QueryInterface p))); simpl.
  { rewrite Hf. simpl. exists false. eexists _, _. split; [reflexivity|].
    simpl. repeat split; try reflexivity. intros h. tally. }
  destruct (m_parent (hnd w)); simpl.
  2:{ rewrite Hf. simpl. exists false. eexists _, _. split; [reflexivity|].
      simpl. repeat split; try reflexivity. intros h. tally. }
  destruct (snd (r_QueryInterface p)) as [a|]; simpl.
  2:{ rewrite Hf. simpl. exists false. eexists _, _. split; [reflexivity|].
      simpl. repeat split; try reflexivity. intros h. tally. }
  destruct (FAILED (fst (r_GetBufferSize p))); simpl.
  { rewrite Hf. simpl. exists false. eexists _, _. split; [reflexivity|].
    simpl. repeat split; try reflexivity. intros h. tally. }
  destruct (FAILED (fst (r_GetService p))); simpl.
  { rewrite Hf. simpl. exists false. eexists _, _. split; [reflexivity|].
    simpl. repeat split; try reflexivity. intros h. tally. }
  destruct (FAILED (r_Start p)); simpl.
  { rewrite Hf. simpl. exists false. eexists _, _. split; [reflexivity|].
    simpl. repeat split; try reflexivity. intros h. tally. }
  exists true.
  destruct (r_CreateThread p =? NULL) eqn:Ht; simpl;
    (eexists _, _; split; [reflexivity|]; simpl;
     repeat split; try reflexivity; intros h;
     rewrite ?count_app; unfold count; simpl;
     destruct (r_CreateThread p =? h); destruct (m_captureEvent (ses w) =? h);
     simpl; lia).
Qed.

Ltac apart H :=
  unfold handles_apart in H;
  repeat match type of H with
         | _ && _ = true =>
           let H' := fresh "Hd" in
           apply andb_true_iff in H; destruct H as [H H'];
           apply negb_true_iff in H'
         end;
  apply negb_true_iff in H.

(** No event handle is closed twice.  Over the life of an object on which
    the callback and then [StopCapture] ran, each of the three event
    handles made by the constructor is closed exactly once: the capture
    event by [StopCapture] when the session was running (the destructor
    then closes the nulled member), by the destructor otherwise. *)
Theorem event_handles_closed_once (b : Birth) (st : Stream) (p p' : Platform) :
  handles_apart b (r_CreateThread p) = true ->
  exists r t,
    lifetime b st (ActivateCompleted p ;;; StopCapture p') = Some (r, t) /\
    closes (ev_ready b) t = 1%nat /\
    closes (ev_stop b) t = 1%nat /\
    closes (ev_capture b) t = 1%nat.
Proof.
  intros Ha. unfold lifetime, construct.
  match goal with
  | |- context [(?m ;;; ?k) ?w0] =>
    destruct (activation_then_stop_closes p p' w0 eq_refl)
      as (running & hr & w2 & Hrun & Hr & Hs & Hc & Hn)
  end.
  simpl in Hrun, Hr, Hs, Hc, Hn. rewrite Hrun.
  eexists _, _. split; [reflexivity|].
  unfold closes, destroy.
  rewrite !session_calls_app, session_calls_map. simpl.
  rewrite Hr, Hs, Hc. rewrite !count_app, !Hn.
  apart Ha.
  assert (Hsr : (ev_stop b =? ev_ready b) = false) by (rewrite Z.eqb_sym; assumption).
  assert (Hcr : (ev_capture b =? ev_ready b) = false) by (rewrite Z.eqb_sym; assumption).
  assert (Hcs : (ev_capture b =? ev_stop b) = false) by (rewrite Z.eqb_sym; assumption).
  assert (Hnr : (NULL =? ev_ready b) = false) by (rewrite Z.eqb_sym; assumption).
  assert (Hns : (NULL =? ev_stop b) = false) by (rewrite Z.eqb_sym; assumption).
  assert (Hnc : (NULL =? ev_capture b) = false) by (rewrite Z.eqb_sym; assumption).
  unfold count.
  destruct running; cbv beta iota;
    unfold filter, is_close;
    rewrite ?Z.eqb_refl, ?Hd, ?Hd0, ?Hd1, ?Hd2, ?Hd3, ?Hd4,
            ?Hsr, ?Hcr, ?Hcs, ?Hnr, ?Hns, ?Hnc, ?andb_false_r;
    repeat split; reflexivity.
Qed.

Lemma event_handles_closed_once_witness :
  handles_apart birth (r_CreateThread healthy) = true /\
  exists r t,
    lifetime birth three_packets (ActivateCompleted healthy ;;; StopCapture healthy)
      = Some (r, t) /\
    closes (ev_ready birth) t = 1%nat /\
    closes (ev_stop birth) t = 1%nat /\
    closes (ev_capture birth) t = 1%nat.
Proof.
  split; [reflexivity|].
  exact (event_handles_closed_once birth three_packets healthy healthy eq_refl).
Defined.





(** The constructor assigns neither [bufferFrameCount] nor
    [m_captureThread].  Whatever they hold at first, the results and the
    calls of a whole life (callback, stop, destruction) are the same: both
    are written before they are read. *)
Theorem unassigned_members_never_read
        (b : Birth) (st : Stream) (p p' : Platform) (frames : UINT32) (thread : HANDLE) :
  lifetime (with_junk frames thread b) st (ActivateCompleted p ;;; StopCapture p')
  = lifetime b st (ActivateCompleted p ;;; StopCapture p').
Proof.
  unfold lifetime, construct, with_junk. open_monad.
  destruct (r_GetActivateResult p) as [[hr0 ar] punk].
  destruct (FAILED hr0 || FAILED ar || is_null punk); simpl; [reflexivity|].
  destruct (FAILED (fst (r_QueryInterface p))); simpl; [reflexivity|].
  destruct (snd (r_QueryInterface p)) as [a|]; simpl; [|reflexivity].
  destruct (FAILED (fst (r_GetBufferSize p))); simpl; [reflexivity|].
  destruct (FAILED (fst (r_GetService p))); simpl; [reflexivity|].
  destruct (FAILED (r_Start p)); simpl; [reflexivity|].
  destruct (r_CreateThread p =? NULL); reflexivity.
Qed.


(** *** The capture thread after a stop *)

Lemma after_stop_snoc (l : list Call) (c : Call) :
  after_stop (l ++ [c])
  = match after_stop l with
    | Some rest => Some (rest ++ [c])
    | None => after_stop [c]
    end.
Proof.
  induction l as [|x l IH]; simpl; [reflexivity|].
  destruct x; simpl; try exact IH. reflexivity.
Qed.

Lemma count_snoc_other (f : Call -> bool) (l : list Call) (c : Call) :
  f c = false -> count f (l ++ [c]) = count f l.
Proof.
  intros H. rewrite count_app. unfold count at 2. simpl. rewrite H. simpl. lia.
Qed.

Lemma stopped_inv_step (p : Platform) (t : tid) (s : Sys) :
  stop_inv s -> stopped_inv s -> stopped_inv (sys_step p t s).
Proof.
  unfold stop_inv, stopped_inv. intros [Hcc Hpc] Hs.
  destruct s as [w cpc tpc]. simpl in *.
  destruct t; simpl.
  - destruct cpc; simpl in *.
    + destruct (negb (m_capturing (ses w))); simpl; exact Hs.
    + destruct (after_stop (log w)); [|exact I].
      destruct Hs as [_ Hs]. split; [reflexivity | exact Hs].
    + destruct (negb (m_captureThread (ses w) =? NULL)); simpl; [|exact Hs].
      rewrite after_stop_snoc.
      destruct (after_stop (log w)) as [rest|]; simpl; [|exact I].
      destruct Hs as [Hf Hs]. split; [exact Hf|].
      rewrite count_snoc_other by reflexivity. exact Hs.
    + destruct (m_audioClient (ses w)); simpl; [|exact Hs].
      rewrite after_stop_snoc.
      destruct (after_stop (log w)) as [rest|]; simpl.
      * destruct Hs as [Hf Hs]. split; [exact Hf|].
        rewrite count_snoc_other by reflexivity. exact Hs.
      * split; [exact Hpc|]. destruct tpc; unfold count; simpl; lia.
    + rewrite after_stop_snoc.
      destruct (after_stop (log w)) as [rest|]; simpl; [|exact I].
      destruct Hs as [Hf Hs]. split; [exact Hf|].
      rewrite count_snoc_other by reflexivity. exact Hs.
    + exact Hs.
  - destruct tpc; simpl.
    + destruct (after_stop (log w)) as [rest|] eqn:Ha.
      * destruct Hs as [Hf Hs]. rewrite Hf. simpl. rewrite Ha.
        split; [exact Hf | exact Hs].
      * case (m_capturing (ses w)); simpl; rewrite Ha; exact I.
    + destruct (m_captureClient (ses w)) as [c|] eqn:Hc; [|congruence].
      destruct (LoopbackFacts.CaptureThread_body_spec w c Hc)
        as (w1 & Hb & Hs1 & _ & _ & _ & Hl).
      rewrite Hb. simpl. rewrite Hl, Hs1. simpl.
      change (log w ++ [Sleep 10; CaptureClient_GetNextPacketSize])
        with (log w ++ [Sleep 10] ++ [CaptureClient_GetNextPacketSize]).
      rewrite app_assoc, !after_stop_snoc.
      destruct (after_stop (log w)) as [rest|]; simpl; [|exact I].
      destruct Hs as [Hf Hs]. split; [exact Hf|].
      rewrite count_app, count_snoc_other by reflexivity.
      change (count is_poll [CaptureClient_GetNextPacketSize]) with 1%nat. lia.
    + exact Hs.
Qed.

Lemma stopped_inv_run (p : Platform) (sched : list tid) :
  forall s : Sys, stop_inv s -> stopped_inv s -> stopped_inv (run p sched s).
Proof.
  induction sched as [|t sched IH]; intros s H1 H2; simpl.
  - exact H2.
  - apply IH; [apply LoopbackFacts.stop_inv_step | apply stopped_inv_step]; assumption.
Qed.

(** [StopCapture] does not wait for the capture thread, but the thread
    cannot go on for long: in every interleaving of a stop with the
    capture loop, at most one size query reaches the stream after
    [AudioClient_Stop]. *)
Theorem at_most_one_poll_after_stop
        (p : Platform) (w : World) (c : nat) (sched : list tid) (t : thread_pc) :
  m_captureClient (ses w) = Some c ->
  after_stop (log w) = None ->
  (polls_after_stop (log (world (run p sched (mkSys w Stop_entry t)))) <= 1)%nat.
Proof.
  intros Hc Hl.
  assert (H : stopped_inv (run p sched (mkSys w Stop_entry t))).
  { apply stopped_inv_run.
    - split; simpl; [congruence | exact I].
    - unfold stopped_inv. simpl. rewrite Hl. exact I. }
  unfold stopped_inv in H. unfold polls_after_stop.
  destruct (after_stop (log (world (run p sched (mkSys w Stop_entry t)))));
    [|lia].
  destruct H as [_ H].
  destruct (thread (run p sched (mkSys w Stop_entry t))); lia.
Qed.

Lemma at_most_one_poll_after_stop_witness :
  m_captureClient (ses running_world) = Some 3%nat /\
  after_stop (log running_world) = None /\
  (polls_after_stop
     (log (world (run healthy
                      [Capture; Caller; Caller; Caller; Caller; Caller;
                       Capture; Capture; Capture]
                      (mkSys running_world Stop_entry Thread_test)))) <= 1)%nat.
Proof.
  split; [reflexivity|]. split; [reflexivity|].
  exact (at_most_one_poll_after_stop healthy running_world 3%nat
           [Capture; Caller; Caller; Caller; Caller; Caller;
            Capture; Capture; Capture] Thread_test eq_refl eq_refl).
Defined.


End LifecycleFacts.

(** ** Further facts about ApplicationLoopback.cpp: what [wmain] starts
    and how it exits *)

Module ExitFacts.

Import ApplicationLoopback.

Section Main.

Variable wcstoul : wstring -> Z.
Variable setmode : Z.
Variable StartCaptureAsync : DWORD -> bool -> HRESULT.

Lemma to_dword_range (x : Z) : 0 <= to_dword x < 2 ^ 32.
Proof. unfold to_dword. apply Z.mod_pos_bound. reflexivity. Qed.

(** A capture is only ever started for a non-zero 32-bit process id read
    from the first argument, after standard output was put in binary mode;
    the exit code then says whether the start succeeded. *)
Theorem wmain_request_is_valid (argv : list wstring) (pid : DWORD) (inc : bool) :
  request (wmain wcstoul setmode StartCaptureAsync argv) = Some (pid, inc) ->
  (2 <= List.length argv)%nat /\
  pid = to_dword (wcstoul (nth 1 argv [])) /\
  0 < pid < 2 ^ 32 /\
  setmode <> -1 /\
  inc = include_flag argv /\
  exit_code (wmain wcstoul setmode StartCaptureAsync argv)
    = (if FAILED (StartCaptureAsync pid inc) then 1 else 0).
Proof.
  unfold wmain.
  destruct (Z.of_nat (List.length argv) <? 2) eqn:Hargc; simpl; [discriminate|].
  apply Z.ltb_ge in Hargc.
  destruct (to_dword (wcstoul (nth 1 argv [])) =? 0) eqn:Hp; simpl; [discriminate|].
  apply Z.eqb_neq in Hp.
  destruct (setmode =? -1) eqn:Hm; simpl; [discriminate|].
  apply Z.eqb_neq in Hm.
  pose proof (to_dword_range (wcstoul (nth 1 argv []))) as Hr.
  destruct (FAILED (StartCaptureAsync (to_dword (wcstoul (nth 1 argv [])))
                      (include_flag argv))) eqn:Hs; simpl;
    intros H; inversion H; subst; rewrite Hs;
    (split; [lia|]); (split; [reflexivity|]); (split; [lia|]);
    (split; [exact Hm|]); split; reflexivity.
Qed.

(** The exit code is 0 or 1.  It is 1 exactly when a process id argument
    is present and the id reads as zero, or binary mode cannot be set, or
    the capture fails to start; a run without arguments prints the usage
    and exits with 0, starting nothing. *)
Theorem wmain_exit_code (argv : list wstring) :
  let r := wmain wcstoul setmode StartCaptureAsync argv in
  let pid := to_dword (wcstoul (nth 1 argv [])) in
  (exit_code r = 0 \/ exit_code r = 1) /\
  (exit_code r = 1 <->
   (2 <= List.length argv)%nat /\
   (pid = 0 \/ setmode = -1 \/
    FAILED (StartCaptureAsync pid (include_flag argv)) = true)) /\
  (if Z.of_nat (List.length argv) <? 2 then r = mkRun 0 None
   else request r = None <-> (pid = 0 \/ setmode = -1)).
Proof.
  cbv zeta. unfold wmain.
  destruct (Z.of_nat (List.length argv) <? 2) eqn:Hargc; simpl.
  - apply Z.ltb_lt in Hargc. split; [left; reflexivity|].
    split; [|reflexivity]. split; [discriminate | intros [H _]; lia].
  - apply Z.ltb_ge in Hargc.
    destruct (to_dword (wcstoul (nth 1 argv [])) =? 0) eqn:Hp; simpl.
    + apply Z.eqb_eq in Hp. split; [right; reflexivity|].
      split; split; intros _; try reflexivity; [split; [lia | left; exact Hp] | left; exact Hp].
    + apply Z.eqb_neq in Hp.
      destruct (setmode =? -1) eqn:Hm; simpl.
      * apply Z.eqb_eq in Hm. split; [right; reflexivity|].
        split; split; intros _; try reflexivity; [split; [lia | auto] | auto].
      * apply Z.eqb_neq in Hm.
        destruct (FAILED (StartCaptureAsync (to_dword (wcstoul (nth 1 argv [])))
                            (include_flag argv))) eqn:Hs; simpl.
        -- split; [right; reflexivity|].
           split; split; try discriminate.
           ++ intros _. split; [lia | auto].
           ++ reflexivity.
           ++ intros [H|H]; contradiction.
        -- split; [left; reflexivity|].
           split; split; try discriminate.
           ++ intros [_ [H|[H|H]]]; [contradiction | contradiction | discriminate].
           ++ intros [H|H]; contradiction.
Qed.

End Main.

Lemma wmain_request_is_valid_witness :
  let argv := [wstr "ApplicationLoopback.exe"; wstr "1234"] in
  request (wmain (fun _ => 1234) 0 (fun _ _ => S_OK) argv) = Some (1234, true) /\
  (2 <= List.length argv)%nat /\
  1234 = to_dword 1234 /\
  0 < 1234 < 2 ^ 32 /\
  0 <> -1 /\
  true = include_flag argv /\
  exit_code (wmain (fun _ => 1234) 0 (fun _ _ => S_OK) argv) = 0.
Proof.
  cbv zeta. split; [reflexivity|].
  exact (wmain_request_is_valid (fun _ => 1234) 0 (fun _ _ => S_OK)
           [wstr "ApplicationLoopback.exe"; wstr "1234"] 1234 true eq_refl).
Defined.

End ExitFacts.

(** ** Further facts about ProcessList.cpp: what the output depends on and
    how it reads back *)

Module OutputFacts.

Import ProcessList Listing Reader.
Local Open Scope string_scope.

Lemma main_lines (desktop : list Window) : main desktop = lines (filter listed desktop).
Proof.
  unfold main. rewrite ProcessListFacts.appsWithTitles_spec.
  apply ProcessListFacts.print_lines.
Qed.

Lemma append_assoc (a b c : string) : (a ++ b) ++ c = a ++ (b ++ c).
Proof. induction a as [|x a IH]; simpl; [reflexivity | rewrite IH; reflexivity]. Qed.

Lemma lines_app (a b : list Window) : lines (a ++ b) = lines a ++ lines b.
Proof.
  induction a as [|w a IH]; simpl; [reflexivity|].
  rewrite IH, append_assoc. reflexivity.
Qed.

(** The output for a desktop is the output for its windows one after the
    other, in enumeration order: a window's line does not depend on the
    windows around it, and windows that are not visible add nothing. *)
Theorem main_window_by_window (d1 d2 : list Window) :
  main (d1 ++ d2) = main d1 ++ main d2 /\
  main (filter visible (d1 ++ d2)) = main (d1 ++ d2).
Proof.
  split; [rewrite !main_lines, filter_app; apply lines_app|].
  rewrite !main_lines. f_equal.
  induction (d1 ++ d2)%list as [|w d IH]; simpl; [reflexivity|].
  unfold listed at 2. destruct (visible w) eqn:V; simpl.
  - unfold listed at 1. rewrite V. simpl.
    destruct (negb (is_empty (title_read w))); simpl; rewrite IH; reflexivity.
  - exact IH.
Qed.

(** The process name is looked up for every listed window and never
    printed: whatever [OpenProcess] and [GetModuleBaseNameA] answer, the
    output is the same. *)
Theorem main_ignores_process_name
        (desktop : list Window) (answer : Window -> option (option string)) :
  main (map (fun w => with_module (answer w) w) desktop) = main desktop.
Proof.
  rewrite !main_lines.
  induction desktop as [|w d IH]; simpl; [reflexivity|].
  change (listed (with_module (answer w) w)) with (listed w).
  destruct (listed w); simpl; [|exact IH].
  rewrite IH. reflexivity.
Qed.

(** The second pass of [main], which keeps the records with a non-empty
    title, removes nothing: the callback has stored no other. *)
Theorem second_filter_removes_nothing (desktop : list Window) :
  appsWithTitles desktop = EnumWindows desktop [] /\
  Forall (fun app => is_empty (windowTitle app) = false) (EnumWindows desktop []).
Proof.
  rewrite ProcessListFacts.appsWithTitles_spec, ProcessListFacts.EnumWindows_spec.
  simpl. rewrite ProcessListFacts.records_map_filter. split; [reflexivity|].
  induction desktop as [|w d IH]; simpl; [constructor|].
  destruct (listed w) eqn:L; simpl; [|exact IH].
  constructor; [|exact IH]. simpl.
  apply ProcessListFacts.listed_title_nonempty. exact L.
Qed.

Lemma has_NUL_c_str (s : string) : has_NUL (c_str s) = false.
Proof.
  induction s as [|c s IH]; simpl; [reflexivity|].
  destruct (Ascii.eqb c NUL) eqn:E; simpl; [reflexivity|].
  rewrite E, IH. reflexivity.
Qed.

(** No title in the output contains a NUL byte: a window text with one is
    cut there. *)
Theorem titles_have_no_NUL (desktop : list Window) :
  Forall (fun app => has_NUL (windowTitle app) = false) (appsWithTitles desktop).
Proof.
  rewrite ProcessListFacts.appsWithTitles_spec.
  induction (filter listed desktop) as [|w d IH]; simpl; constructor;
    [apply has_NUL_c_str | exact IH].
Qed.

(** *** Reading a record back *)

Lemma all_digits_NilEmpty (d : Decimal.uint) :
  all_digits (NilEmpty.string_of_uint d) = true.
Proof. induction d; simpl; try reflexivity; exact IHd. Qed.

Lemma all_digits_dec (n : Z) : all_digits (dec n) = true.
Proof.
  unfold dec, NilZero.string_of_uint.
  destruct (N.to_uint (Z.to_N n)) eqn:E; try reflexivity;
    rewrite <- E; apply all_digits_NilEmpty || (simpl; apply all_digits_NilEmpty).
Qed.

Lemma dec_not_empty (n : Z) : is_empty (dec n) = false.
Proof.
  unfold dec, NilZero.string_of_uint.
  destruct (N.to_uint (Z.to_N n)); reflexivity.
Qed.

Lemma field_digits (s rest : string) :
  all_digits s = true ->
  field (s ++ String semicolon rest) = (s, rest).
Proof.
  induction s as [|c s IH]; simpl; intros H.
  - reflexivity.
  - apply andb_true_iff in H. destruct H as [Hc Hs].
    assert (E : Ascii.eqb c semicolon = false).
    { apply Ascii.eqb_neq. intros ->. discriminate. }
    rewrite E, (IH Hs). reflexivity.
Qed.

(** A record reads back without ambiguity.  Its first two fields are
    non-empty strings of decimal digits, so cutting the line at its first
    two semicolons gives the process id, the window handle (its low 32
    bits) and then the title with the line feed, even when the title
    itself contains semicolons. *)
Theorem print_record_reads_back (app : WindowInfo) :
  all_digits (dec (processId app)) = true /\
  is_empty (dec (processId app)) = false /\
  all_digits (dec (to_ulong (windowHandle app))) = true /\
  is_empty (dec (to_ulong (windowHandle app))) = false /\
  field (print_record app)
    = (dec (processId app),
       dec (to_ulong (windowHandle app)) ++ ";" ++ windowTitle app ++ LF) /\
  field (dec (to_ulong (windowHandle app)) ++ ";" ++ windowTitle app ++ LF)
    = (dec (to_ulong (windowHandle app)), windowTitle app ++ LF).
Proof.
  split; [apply all_digits_dec|]. split; [apply dec_not_empty|].
  split; [apply all_digits_dec|]. split; [apply dec_not_empty|].
  unfold print_record. split.
  - apply (field_digits (dec (processId app))). apply all_digits_dec.
  - apply (field_digits (dec (to_ulong (windowHandle app)))). apply all_digits_dec.
Qed.

End OutputFacts.
